(** * CryptoSanta room store: a shallow embedding and its properties

    The development follows the Python sources:
      - [backend/models/room.py]        the [Room] record and its status enum;
      - [backend/storage/room_store.py] [RoomStore], the versioned store;
      - [backend/api/routes.py]         the FastAPI handlers and [verify_chair].

    Modelling decisions.
      - [rooms_dict] (a [modal.Dict] of JSON documents) is a [gmap] from room
        identifiers to [Room] records: [model_dump_json] followed by
        [model_validate_json] gives back an equal, unshared record.
      - Timestamps are integers counted in microseconds, the resolution of
        Python's [datetime]; [datetime.utcnow()] is the [utcnow] field of the
        world.
      - Python's [int] is [Z]; [len] is [length].
      - A call of one of [RoomStore]'s storage methods ([create_room],
        [get_room], [_update_room_with_version], [delete_room]) is one step
        of [exec], [run_from] and [sys_step]: its body runs on the world
        without interruption, and other clients and the passing of time act
        between two such calls.
      - [_update_room_with_version] is a read of the dict followed by a
        separate write, and [modal.Dict] offers nothing that makes the two
        one.  [version_check], [write_room], [race_from] and [race_step]
        model the two steps with other clients acting in between; what is
        proved of them holds of those finer executions too. *)

From Stdlib Require Import ZArith List Lia.
From stdpp Require Import base tactics option list strings gmap pretty.

Local Open Scope Z_scope.
Local Open Scope string_scope.
Local Open Scope list_scope.

(** ** backend/models/room.py *)

Inductive RoomStatus : Type :=
| OPEN        (* Registration phase *)
| SORTED      (* Keys sorted, ready for messaging *)
| MESSAGING.  (* Address exchange in progress *)

#[global] Instance RoomStatus_eq_dec : EqDecision RoomStatus.
Proof. solve_decision. Defined.

Definition RoomStatus_value (s : RoomStatus) : string :=
  match s with
  | OPEN => "OPEN"
  | SORTED => "SORTED"
  | MESSAGING => "MESSAGING"
  end.

Record RoomParams : Type := mkRoomParams {
  P : string;   (* Prime modulus (decimal string) *)
  g : string    (* Generator (decimal string) *)
}.

Record Room : Type := mkRoom {
  id : string;
  status : RoomStatus;
  params : RoomParams;
  session_public_key : string;
  chair_secret_hash : string;
  participants : list string;
  sorted_keys : list string;
  messages : list string;
  created_at : Z;
  version : Z
}.

(** Attribute assignment on a room object. *)
Definition with_status (room : Room) (s : RoomStatus) : Room :=
  mkRoom (id room) s (params room) (session_public_key room)
         (chair_secret_hash room) (participants room) (sorted_keys room)
         (messages room) (created_at room) (version room).

Definition with_participants (room : Room) (l : list string) : Room :=
  mkRoom (id room) (status room) (params room) (session_public_key room)
         (chair_secret_hash room) l (sorted_keys room)
         (messages room) (created_at room) (version room).

Definition with_sorted_keys (room : Room) (l : list string) : Room :=
  mkRoom (id room) (status room) (params room) (session_public_key room)
         (chair_secret_hash room) (participants room) l
         (messages room) (created_at room) (version room).

Definition with_messages (room : Room) (l : list string) : Room :=
  mkRoom (id room) (status room) (params room) (session_public_key room)
         (chair_secret_hash room) (participants room) (sorted_keys room)
         l (created_at room) (version room).

Definition with_version (room : Room) (v : Z) : Room :=
  mkRoom (id room) (status room) (params room) (session_public_key room)
         (chair_secret_hash room) (participants room) (sorted_keys room)
         (messages room) (created_at room) v.

(** Request and response schemas.  The fields [P] and [g] of the create
    request are [req_P] and [req_g] here; the fields of [RoomResponse] that
    share a name with a field of [Room] carry the prefix [resp_]. *)
Record CreateRoomRequest : Type := mkCreateRoomRequest {
  req_P : string;
  req_g : string;
  sessionPublicKey : string;
  chairSecretHash : string
}.

Record RegisterRequest : Type := mkRegisterRequest { encryptedKey : string }.
Record SortRequest : Type := mkSortRequest { sortedKeys : list string }.
Record MessageRequest : Type := mkMessageRequest { blob : string }.

Record RoomResponse : Type := mkRoomResponse {
  resp_id : string;
  resp_status : string;
  resp_params : RoomParams;
  resp_sessionPublicKey : string;
  participantCount : nat;
  resp_sortedKeys : list string;
  resp_messages : list string
}.

(** ** backend/storage/room_store.py: constants and the shared world *)

Definition ROOM_TTL_SECONDS : Z := 30 * 24 * 60 * 60.
Definition MAX_RETRIES : nat := 5.
Definition RETRY_DELAY_MS : Z := 50.

(** [timedelta(seconds=s)], in microseconds. *)
Definition timedelta_seconds (s : Z) : Z := s * 1000000.

Record World : Type := mkWorld {
  rooms_dict : gmap string Room;
  utcnow : Z
}.

Definition with_rooms_dict (w : World) (d : gmap string Room) : World :=
  mkWorld d (utcnow w).

Inductive Exn : Type :=
| ValueError (msg : string)
| ConcurrentModificationError (msg : string).

(** The age test of [get_room]:
    [datetime.utcnow() - room.created_at > timedelta(seconds=ROOM_TTL_SECONDS)]. *)
Definition expired (now : Z) (room : Room) : bool :=
  bool_decide (now - created_at room > timedelta_seconds ROOM_TTL_SECONDS).

(** ** Programs over the store

    The operations of [RoomStore] and the route handlers are sequences of
    calls to the storage methods, of clock reads and of sleeps, with
    ordinary Python control flow in between.  [Prog E A] is the type of such
    sequences: [E] is the type of the exceptions they raise, [A] of the
    values they return. *)

Inductive StoreCall : Type → Type :=
| CreateRoom (room : Room) : StoreCall string
| GetRoom (room_id : string) : StoreCall (option Room)
| UpdateRoomWithVersion (room : Room) (expected_version : Z) : StoreCall bool
| DeleteRoom (room_id : string) : StoreCall bool
| UtcNow : StoreCall Z
| Sleep (ms : Z) : StoreCall unit.

Inductive Prog (E A : Type) : Type :=
| Return (a : A)
| Raise (e : E)
| Call {X : Type} (c : StoreCall X) (k : X → Prog E A).

Arguments Return {E A} a.
Arguments Raise {E A} e.
Arguments Call {E A X} c k.

Definition call {E X} (c : StoreCall X) : Prog E X := Call c Return.

Fixpoint bind {E A B} (p : Prog E A) (f : A → Prog E B) : Prog E B :=
  match p with
  | Return a => f a
  | Raise e => Raise e
  | Call c k => Call c (λ x, bind (k x) f)
  end.

(** [try: p except e: h e]. *)
Fixpoint try_except {E E' A} (p : Prog E A) (h : E → Prog E' A) : Prog E' A :=
  match p with
  | Return a => Return a
  | Raise e => h e
  | Call c k => Call c (λ x, try_except (k x) h)
  end.

#[global] Instance Prog_ret {E} : MRet (Prog E) := λ A, Return.
#[global] Instance Prog_bind {E} : MBind (Prog E) := λ A B f p, bind p f.

Module RoomStore.

(** Store a new room and return its ID. *)
Definition create_room (room : Room) (w : World) : string * World :=
  (id room, with_rooms_dict w (<[id room := room]> (rooms_dict w))).

(** Retrieve a room by ID. Returns None if not found or expired; an
    expired record is popped from the dict. *)
Definition get_room (room_id : string) (w : World) : option Room * World :=
  match rooms_dict w !! room_id with
  | None => (None, w)
  | Some room =>
      if expired (utcnow w) room
      then (None, with_rooms_dict w (delete room_id (rooms_dict w)))
      else (Some room, w)
  end.

(** Update room only if version matches. Returns True if successful. *)
Definition _update_room_with_version (room : Room) (expected_version : Z)
    (w : World) : bool * World :=
  let '(current, w) := get_room (id room) w in
  match current with
  | None => (false, w)
  | Some current =>
      if bool_decide (version current ≠ expected_version)
      then (false, w)
      else
        let room := with_version room (expected_version + 1) in
        (true, with_rooms_dict w (<[id room := room]> (rooms_dict w)))
  end.

(** Delete a room. Returns True if deleted, False if not found. *)
Definition delete_room (room_id : string) (w : World) : bool * World :=
  match rooms_dict w !! room_id with
  | Some _ => (true, with_rooms_dict w (delete room_id (rooms_dict w)))
  | None => (false, w)
  end.

(** Add an encrypted public key to participants with optimistic locking.
    [attempts] is what is left of [range(MAX_RETRIES)]. *)
Fixpoint add_participant_loop (attempts : list nat)
    (room_id encrypted_key : string) : Prog Exn unit :=
  match attempts with
  | [] =>
      Raise (ConcurrentModificationError
               "Failed to register after max retries, please try again")
  | attempt :: attempts =>
      room ← call (GetRoom room_id);
      match room with
      | None => Raise (ValueError ("Room " ++ room_id ++ " not found"))
      | Some room =>
          if bool_decide (status room ≠ OPEN)
          then Raise (ValueError "Registration is closed")
          else if bool_decide (encrypted_key ∈ participants room)
          then Raise (ValueError "Duplicate registration")
          else
            let expected_version := version room in
            let room :=
              with_participants room (participants room ++ [encrypted_key]) in
            ok ← call (UpdateRoomWithVersion room expected_version);
            if ok : bool then Return ()
            else
              (* Retry with exponential backoff *)
              call (Sleep (RETRY_DELAY_MS * 2 ^ Z.of_nat attempt));;
              add_participant_loop attempts room_id encrypted_key
      end
  end.

Definition add_participant (room_id encrypted_key : string) : Prog Exn unit :=
  add_participant_loop (seq 0 MAX_RETRIES) room_id encrypted_key.

(** Set sorted keys and transition to SORTED state with validation. *)
Definition set_sorted_keys (room_id : string) (sorted_keys : list string)
    : Prog Exn unit :=
  room ← call (GetRoom room_id);
  match room with
  | None => Raise (ValueError ("Room " ++ room_id ++ " not found"))
  | Some room =>
      if bool_decide (status room ≠ OPEN)
      then Raise (ValueError "Room is not in OPEN state")
      else if bool_decide (length sorted_keys < 3)%nat
      then Raise (ValueError "Minimum 3 participants required")
      else if bool_decide (length sorted_keys ≠ length (participants room))
      then Raise (ValueError
             ("Sorted keys count (" ++ pretty (length sorted_keys)
              ++ ") must match participants count ("
              ++ pretty (length (participants room)) ++ ")"))
      else if bool_decide
                (length sorted_keys ≠ size (list_to_set sorted_keys : gset string))
      then Raise (ValueError "Duplicate keys in sorted list")
      else
        let expected_version := version room in
        let room := with_sorted_keys room sorted_keys in
        let room := with_status room SORTED in
        ok ← call (UpdateRoomWithVersion room expected_version);
        if ok : bool then Return ()
        else Raise (ConcurrentModificationError "Room was modified during sorting")
  end.

(** Add an encrypted message with optimistic locking. *)
Fixpoint add_message_loop (attempts : list nat)
    (room_id message_blob : string) : Prog Exn unit :=
  match attempts with
  | [] =>
      Raise (ConcurrentModificationError
               "Failed to post message after max retries, please try again")
  | attempt :: attempts =>
      room ← call (GetRoom room_id);
      match room with
      | None => Raise (ValueError ("Room " ++ room_id ++ " not found"))
      | Some room =>
          if bool_decide (status room = OPEN)
          then Raise (ValueError "Cannot send messages before sorting")
          (* Limit messages to number of participants to prevent spam:
             len(room.messages) >= len(room.sorted_keys) *)
          else if bool_decide
                    (length (sorted_keys room) ≤ length (messages room))%nat
          then Raise (ValueError
                 "All participants have already submitted their addresses")
          else
            let expected_version := version room in
            (* Transition to MESSAGING on first message *)
            let room :=
              if bool_decide (status room = SORTED)
              then with_status room MESSAGING else room in
            let room := with_messages room (messages room ++ [message_blob]) in
            ok ← call (UpdateRoomWithVersion room expected_version);
            if ok : bool then Return ()
            else
              (* Retry with exponential backoff *)
              call (Sleep (RETRY_DELAY_MS * 2 ^ Z.of_nat attempt));;
              add_message_loop attempts room_id message_blob
      end
  end.

Definition add_message (room_id message_blob : string) : Prog Exn unit :=
  add_message_loop (seq 0 MAX_RETRIES) room_id message_blob.

End RoomStore.

(** ** backend/api/routes.py *)

Record HTTPException : Type := mkHTTPException {
  status_code : Z;
  detail : string
}.

(** What a handler returns: one of the response models, or the dict
    [{"success": True}]. *)
Inductive Response : Type :=
| CreateRoomResponse (roomId : string)
| RoomResponse_ (r : RoomResponse)
| SuccessDict
| ParticipantsResponse (participants : list string)
| MessagesResponse (messages : list string).

(** [str(e)] of an exception built from one message. *)
Definition str (e : Exn) : string :=
  match e with
  | ValueError msg => msg
  | ConcurrentModificationError msg => msg
  end.

Module routes.
Section WithHash.

(** [hashlib.sha256(s.encode()).hexdigest()], from Python's library. *)
Variable sha256_hexdigest : string → string.

(** Verify the chair secret matches the stored hash. *)
Definition verify_chair (room : Room) (chair_secret : option string) : bool :=
  match chair_secret with
  | None | Some "" => false      (* if not chair_secret: return False *)
  | Some chair_secret =>
      let hashed := sha256_hexdigest chair_secret in
      bool_decide (hashed = chair_secret_hash room)
  end.

(** The two [except] clauses shared by the mutating handlers. *)
Definition except_store_errors (e : Exn) : Prog HTTPException Response :=
  match e with
  | ValueError _ => Raise (mkHTTPException 400 (str e))
  | ConcurrentModificationError _ => Raise (mkHTTPException 409 (str e))
  end.

(** POST /room.  [uuid] is the value of [str(uuid.uuid4())]. *)
Definition create_room (uuid : string) (request : CreateRoomRequest)
    : Prog HTTPException Response :=
  now ← call UtcNow;
  let room :=
    mkRoom uuid OPEN (mkRoomParams (req_P request) (req_g request))
           (sessionPublicKey request) (chairSecretHash request)
           [] [] [] now 0 in
  room_id ← call (CreateRoom room);
  Return (CreateRoomResponse room_id).

(** GET /room/{room_id} *)
Definition get_room (room_id : string) : Prog HTTPException Response :=
  room ← call (GetRoom room_id);
  match room with
  | None => Raise (mkHTTPException 404 "Room not found")
  | Some room =>
      Return (RoomResponse_
                (mkRoomResponse (id room) (RoomStatus_value (status room))
                   (params room) (session_public_key room)
                   (length (participants room)) (sorted_keys room)
                   (messages room)))
  end.

(** POST /room/{room_id}/register *)
Definition register (room_id : string) (request : RegisterRequest)
    : Prog HTTPException Response :=
  try_except
    (RoomStore.add_participant room_id (encryptedKey request);;
     Return SuccessDict)
    except_store_errors.

(** GET /room/{room_id}/participants *)
Definition get_participants (room_id : string) : Prog HTTPException Response :=
  room ← call (GetRoom room_id);
  match room with
  | None => Raise (mkHTTPException 404 "Room not found")
  | Some room => Return (ParticipantsResponse (participants room))
  end.

(** POST /room/{room_id}/sort *)
Definition sort_keys (room_id : string) (request : SortRequest)
    (x_chair_secret : option string) : Prog HTTPException Response :=
  room ← call (GetRoom room_id);
  match room with
  | None => Raise (mkHTTPException 404 "Room not found")
  | Some room =>
      if negb (verify_chair room x_chair_secret)
      then Raise (mkHTTPException 403 "Invalid chair secret")
      else
        try_except
          (RoomStore.set_sorted_keys room_id (sortedKeys request);;
           Return SuccessDict)
          except_store_errors
  end.

(** POST /room/{room_id}/message *)
Definition post_message (room_id : string) (request : MessageRequest)
    : Prog HTTPException Response :=
  try_except
    (RoomStore.add_message room_id (blob request);;
     Return SuccessDict)
    except_store_errors.

(** GET /room/{room_id}/messages *)
Definition get_messages (room_id : string) : Prog HTTPException Response :=
  room ← call (GetRoom room_id);
  match room with
  | None => Raise (mkHTTPException 404 "Room not found")
  | Some room => Return (MessagesResponse (messages room))
  end.

End WithHash.
End routes.

(** ** Running a program

    [exec] gives a call its meaning on the world.  [time.sleep] lets the
    clock advance by the requested delay, given in milliseconds.  An update
    is one step of [exec]; [exec_racing], further down, has its check and
    its write as two steps with other clients in between. *)

Definition exec {X} (c : StoreCall X) (w : World) : X * World :=
  match c in StoreCall X return X * World with
  | CreateRoom room => RoomStore.create_room room w
  | GetRoom room_id => RoomStore.get_room room_id w
  | UpdateRoomWithVersion room expected_version =>
      RoomStore._update_room_with_version room expected_version w
  | DeleteRoom room_id => RoomStore.delete_room room_id w
  | UtcNow => (utcnow w, w)
  | Sleep ms => ((), mkWorld (rooms_dict w) (utcnow w + ms * 1000))
  end.

Inductive Outcome (E A : Type) : Type :=
| Returned (a : A)
| Raised (e : E).
Arguments Returned {E A} a.
Arguments Raised {E A} e.

(** One call made by a program: the call, its result, and the world just
    before and just after it. *)
Inductive Event : Type :=
| Did {X : Type} (c : StoreCall X) (result : X) (before after : World).

Record Run (E A : Type) : Type := mkRun {
  outcome : Outcome E A;
  final : World;
  trace : list Event
}.
Arguments mkRun {E A} _ _ _.
Arguments outcome {E A} _.
Arguments final {E A} _.
Arguments trace {E A} _.

(** What the rest of the system does to the world between two calls of the
    program under study: writes of other clients, the passing of time. *)
Definition Interference : Type := World → World.

Definition quiet : Interference := λ w, w.

(** [run_from p sched w]: before each call of [p] the next interference of
    [sched] acts (none once [sched] is used up). *)
Fixpoint run_from {E A} (p : Prog E A) (sched : list Interference) (w : World)
    : Run E A :=
  match p with
  | Return a => mkRun (Returned a) w []
  | Raise e => mkRun (Raised e) w []
  | Call c k =>
      let w0 := hd quiet sched w in
      let r := exec c w0 in
      let rest := run_from (k r.1) (tl sched) r.2 in
      mkRun (outcome rest) (final rest) (Did c r.1 w0 r.2 :: trace rest)
  end.

(** A program starts with its first call: the interferences of [sched] act
    between the first call and the second, the second and the third, ... *)
Definition run {E A} (p : Prog E A) (sched : list Interference) (w : World)
    : Run E A :=
  run_from p (quiet :: sched) w.

(** The program alone in the system, the clock standing still between calls. *)
Definition run_alone {E A} (p : Prog E A) (w : World) : Run E A := run p [] w.

(** ** The system: concurrent handlers over one store

    A configuration is the shared world and the handlers in flight, each at
    its next call.  A step is the arrival of a request, one call of one
    handler, a change of the clock, or an explicit [delete_room]. *)

Inductive Action : Type :=
| ACall {X : Type} (c : StoreCall X)
| ATime (now : Z).

Definition act (a : Action) (w : World) : World :=
  match a with
  | ACall c => (exec c w).2
  | ATime now => mkWorld (rooms_dict w) now
  end.

(** The identifier under which a call stores a brand new room, if it does. *)
Definition creates {X} (c : StoreCall X) : option string :=
  match c with
  | CreateRoom room => Some (id room)
  | _ => None
  end.

Definition action_creates (a : Action) : option string :=
  match a with
  | ACall c => creates c
  | ATime _ => None
  end.

Record Config : Type := mkConfig {
  world : World;
  threads : list (Prog HTTPException Response)
}.

Section System.

Variable sha256_hexdigest : string → string.

Inductive handler : Prog HTTPException Response → Prop :=
| handler_create_room uuid request :
    handler (routes.create_room uuid request)
| handler_get_room room_id :
    handler (routes.get_room room_id)
| handler_register room_id request :
    handler (routes.register room_id request)
| handler_get_participants room_id :
    handler (routes.get_participants room_id)
| handler_sort_keys room_id request x_chair_secret :
    handler (routes.sort_keys sha256_hexdigest room_id request x_chair_secret)
| handler_post_message room_id request :
    handler (routes.post_message room_id request)
| handler_get_messages room_id :
    handler (routes.get_messages room_id).

Inductive sys_step : Config → Config → Prop :=
| step_request cfg p :
    handler p →
    sys_step cfg (mkConfig (world cfg) (threads cfg ++ [p]))
| step_call cfg i X (c : StoreCall X) k :
    threads cfg !! i = Some (Call c k) →
    sys_step cfg (mkConfig (act (ACall c) (world cfg))
                           (<[i := k (exec c (world cfg)).1]> (threads cfg)))
| step_time cfg now :
    sys_step cfg (mkConfig (act (ATime now) (world cfg)) (threads cfg))
| step_delete cfg room_id :
    sys_step cfg (mkConfig (act (ACall (DeleteRoom room_id)) (world cfg))
                           (threads cfg)).

Definition initial (cfg : Config) : Prop :=
  rooms_dict (world cfg) = ∅ ∧ threads cfg = [].

Definition reachable (cfg : Config) : Prop :=
  ∃ cfg0, initial cfg0 ∧ rtc sys_step cfg0 cfg.

End System.

(** ** Invariants of stored rooms *)

(** What holds of the room stored under the key [key]. *)
Record room_inv (key : string) (room : Room) : Prop := mk_room_inv {
  inv_id : id room = key;
  inv_participants : NoDup (participants room);
  inv_messages : status room ≠ MESSAGING → messages room = [];
  inv_slots : (length (messages room) ≤ length (sorted_keys room))%nat
}.

Definition store_inv (w : World) : Prop :=
  ∀ key room, rooms_dict w !! key = Some room → room_inv key room.

(** A call writes only rooms that satisfy the invariant. *)
Definition call_safe {X} (c : StoreCall X) : Prop :=
  match c with
  | CreateRoom room => room_inv (id room) room
  | UpdateRoomWithVersion room expected_version =>
      room_inv (id room) (with_version room (expected_version + 1))
  | _ => True
  end.

(** What a program may assume of the result of a call. *)
Definition reply_inv {X} (c : StoreCall X) : X → Prop :=
  match c in StoreCall X return X → Prop with
  | GetRoom room_id => λ r, ∀ room, r = Some room → room_inv room_id room
  | _ => λ _, True
  end.

(** A program all of whose calls are safe, whatever the store answers
    within the invariant. *)
Fixpoint safe {E A} (p : Prog E A) : Prop :=
  match p with
  | Return _ | Raise _ => True
  | Call c k => call_safe c ∧ ∀ x, reply_inv c x → safe (k x)
  end.

Definition config_inv (cfg : Config) : Prop :=
  store_inv (world cfg) ∧ Forall safe (threads cfg).

(** ** Views of a trace *)

(** The calls of [_update_room_with_version] in a trace: the room passed,
    the expected version, the answer. *)
Definition update_of (e : Event) : option (Room * Z * bool) :=
  match e with
  | Did c result _ _ =>
      match c in StoreCall X return X → option (Room * Z * bool) with
      | UpdateRoomWithVersion room expected_version =>
          λ ok, Some (room, expected_version, ok)
      | _ => λ _, None
      end result
  end.

Definition updates (t : list Event) : list (Room * Z * bool) := omap update_of t.

(** The delays passed to [time.sleep], in milliseconds. *)
Definition sleeps (t : list Event) : list Z :=
  omap (λ e, match e with Did (Sleep ms) _ _ _ => Some ms | _ => None end) t.

(** The dict after a call differs from the dict before it at most by the
    removal of one record, which was expired at that time. *)
Definition evicts_only (before after : World) : Prop :=
  rooms_dict after = rooms_dict before
  ∨ ∃ key room, rooms_dict before !! key = Some room
                ∧ expired (utcnow before) room = true
                ∧ rooms_dict after = delete key (rooms_dict before).

Definition event_evicts_only (e : Event) : Prop :=
  match e with Did _ _ before after => evicts_only before after end.



(** The three mutating operations of the store. *)
Inductive Mutation : Type :=
| RegisterParticipant (encrypted_key : string)
| SetSortedKeys (sorted_keys : list string)
| PostMessage (message_blob : string).

Definition mutate (room_id : string) (m : Mutation) : Prog Exn unit :=
  match m with
  | RegisterParticipant encrypted_key =>
      RoomStore.add_participant room_id encrypted_key
  | SetSortedKeys sorted_keys => RoomStore.set_sorted_keys room_id sorted_keys
  | PostMessage message_blob => RoomStore.add_message room_id message_blob
  end.

(** ** The shape of a compare-and-swap operation

    The three mutating operations are built alike: read the room, validate,
    call [_update_room_with_version] with the version just read, return at
    once when it says True; when it says False either raise or sleep and
    start again.  [cas_shape] says so of a program. *)

Inductive Phase : Type :=
| AtStart
| AfterRead (r : option Room)
| AfterFail.

Inductive cas_shape (room_id : string) : Phase → Prog Exn unit → Prop :=
| cas_Raise ph e : cas_shape room_id ph (Raise e)
| cas_read k :
    (∀ r, cas_shape room_id (AfterRead r) (k r)) →
    cas_shape room_id AtStart (Call (GetRoom room_id) k)
| cas_update room new_room k :
    id new_room = id room →
    k true = Return () →
    cas_shape room_id AfterFail (k false) →
    cas_shape room_id (AfterRead (Some room))
      (Call (UpdateRoomWithVersion new_room (version room)) k)
| cas_sleep ms k :
    cas_shape room_id AtStart (k ()) →
    cas_shape room_id AfterFail (Call (Sleep ms) k).

(** The trace [t] ends with the winning attempt: the read of [room] and the
    accepted write of [new_room]; the record found by the version check
    carries the version read, the record stored by the write that version
    plus one. *)
Definition accepted_at (room_id : string) (t : list Event) (final : World)
    : Prop :=
  ∃ t0 room new_room w_read w_read' before current stored,
    t = t0 ++ [Did (GetRoom room_id) (Some room) w_read w_read';
               Did (UpdateRoomWithVersion new_room (version room)) true
                   before final]
    ∧ id new_room = id room
    ∧ rooms_dict before !! id room = Some current
    ∧ version current = version room
    ∧ rooms_dict final !! id room = Some stored
    ∧ stored = with_version new_room (version room + 1)
    ∧ version stored = version room + 1.

(** Every call a program can make satisfies [Φ]. *)
Fixpoint all_calls {E A} (Φ : ∀ X, StoreCall X → Prop) (p : Prog E A) : Prop :=
  match p with
  | Return _ | Raise _ => True
  | Call c k => Φ _ c ∧ ∀ x, all_calls Φ (k x)
  end.

Definition event_call (Φ : ∀ X, StoreCall X → Prop) (e : Event) : Prop :=
  match e with Did c _ _ _ => Φ _ c end.

(** An interference that leaves the dict alone (the clock may move). *)
Definition clock_only (i : Interference) : Prop :=
  ∀ w, rooms_dict (i w) = rooms_dict w.

(** The write that [add_message] asks for: status MESSAGING together with
    the new blob at the end of the messages. *)
Definition writes_message (message_blob : string) X (c : StoreCall X) : Prop :=
  match c with
  | UpdateRoomWithVersion room _ =>
      status room = MESSAGING
      ∧ ∃ earlier, messages room = earlier ++ [message_blob]
  | CreateRoom _ | DeleteRoom _ => False
  | _ => True
  end.

(** The delays of the retry loops: [RETRY_DELAY_MS * (2 ** attempt)] for
    [attempt] in [range(MAX_RETRIES)]. *)
Definition backoff_delays : list Z :=
  map (λ attempt, RETRY_DELAY_MS * 2 ^ Z.of_nat attempt) (seq 0 MAX_RETRIES).

(** The world after the actions [later], in that order. *)
Definition after (later : list Action) (w : World) : World :=
  foldl (λ w a, act a w) w later.

(** ** Statements about responses *)


(** The message of the [ValueError] raised when every slot is taken. *)
Definition slot_exhaustion : string :=
  "All participants have already submitted their addresses".

(** The record stored under [room_id] can be read: present and not expired. *)
Definition live (w : World) (room_id : string) (room : Room) : Prop :=
  rooms_dict w !! room_id = Some room ∧ expired (utcnow w) room = false.

(** The handlers [ps] served one after the other, each alone in the
    system: the outcomes, and the world at the end. *)
Definition serve (ps : list (Prog HTTPException Response)) (w : World)
    : list (Outcome HTTPException Response) * World :=
  foldl (λ acc p, (acc.1 ++ [outcome (run_alone p acc.2)],
                   final (run_alone p acc.2)))
        ([], w) ps.

(** A stand-in for the hash in examples: the secret behind a prefix, and the
    empty secret hashed to the hash the sample rooms store. *)
Definition toy_hash (s : string) : string :=
  if bool_decide (s = "") then "chair-hash" else "h:" +:+ s.

(** ** Sample rooms and worlds *)

Definition empty_world : World := mkWorld ∅ 0.

(** A room as [routes.create_room] builds it. *)
Definition fresh_room : Room :=
  mkRoom "r1" OPEN (mkRoomParams "23" "5") "session-key" "chair-hash"
         [] [] [] 0 0.

Definition fresh_world : World := mkWorld {[ "r1" := fresh_room ]} 1000.

(** Three participants registered, keys sorted, no message yet. *)
Definition sorted_room : Room :=
  mkRoom "r1" SORTED (mkRoomParams "23" "5") "session-key" "chair-hash"
         ["k1"; "k2"; "k3"] ["a"; "b"; "c"] [] 0 4.

Definition sorted_world : World := mkWorld {[ "r1" := sorted_room ]} 1000.

(** Three participants registered, sorting not done yet. *)
Definition registered_room : Room :=
  mkRoom "r1" OPEN (mkRoomParams "23" "5") "session-key" "chair-hash"
         ["k1"; "k2"; "k3"] [] [] 0 3.

Definition registered_world : World :=
  mkWorld {[ "r1" := registered_room ]} 1000.

(** Another client wins the race: every stored version goes up by one. *)
Definition bump_versions : Interference :=
  λ w, with_rooms_dict w
         ((λ room, with_version room (version room + 1)) <$> rooms_dict w).

(** ** Further notions *)

(** How the mutating handlers answer the outcome of the operation they
    call: [{"success": True}] when it returns, 400 with the message for a
    [ValueError], 409 with the message for a concurrent modification. *)
Definition respond (o : Outcome Exn unit) : Outcome HTTPException Response :=
  match o with
  | Returned _ => Returned SuccessDict
  | Raised (ValueError msg) => Raised (mkHTTPException 400 msg)
  | Raised (ConcurrentModificationError msg) => Raised (mkHTTPException 409 msg)
  end.

(** The room a create request makes at the time [now]. *)
Definition new_room (uuid : string) (request : CreateRoomRequest) (now : Z)
    : Room :=
  mkRoom uuid OPEN (mkRoomParams (req_P request) (req_g request))
         (sessionPublicKey request) (chairSecretHash request) [] [] [] now 0.

(** The order of the lifecycle: OPEN, then SORTED, then MESSAGING. *)
Definition status_rank (s : RoomStatus) : nat :=
  match s with
  | OPEN => 0
  | SORTED => 1
  | MESSAGING => 2
  end.

(** [after] carries the room [before] on: same identity, parameters, session
    key, chair secret hash and creation time; participants and messages
    kept with possibly more at the end; sorted keys kept unless [before]
    was OPEN; status not earlier in the lifecycle. *)
Record carries_on (before after : Room) : Prop := mk_carries_on {
  on_id : id after = id before;
  on_params : params after = params before;
  on_session_public_key : session_public_key after = session_public_key before;
  on_chair_secret_hash : chair_secret_hash after = chair_secret_hash before;
  on_created_at : created_at after = created_at before;
  on_participants : participants before `prefix_of` participants after;
  on_messages : messages before `prefix_of` messages after;
  on_sorted_keys :
    status before ≠ OPEN → sorted_keys after = sorted_keys before;
  on_status : (status_rank (status before) ≤ status_rank (status after))%nat
}.

(** The room most recently read, after a call with result [x]. *)
Definition observe {X} (c : StoreCall X) : X → option Room → option Room :=
  match c in StoreCall X return X → option Room → option Room with
  | GetRoom _ => λ r _, r
  | _ => λ _ last, last
  end.

(** A call that follows the read of [last]: an update passes the version of
    the room read and a room related to it by [R]; rooms are neither
    created nor deleted. *)
Definition write_follows (R : Room → Room → Prop) {X} (c : StoreCall X)
    (last : option Room) : Prop :=
  match c with
  | UpdateRoomWithVersion room expected_version =>
      ∃ read, last = Some read ∧ expected_version = version read ∧ R read room
  | CreateRoom _ | DeleteRoom _ => False
  | _ => True
  end.

Fixpoint writes_follow {E A} (R : Room → Room → Prop) (last : option Room)
    (p : Prog E A) : Prop :=
  match p with
  | Return _ | Raise _ => True
  | Call c k => write_follows R c last ∧ ∀ x, writes_follow R (observe c x last) (k x)
  end.

Fixpoint trace_follows (R : Room → Room → Prop) (last : option Room)
    (t : list Event) : Prop :=
  match t with
  | [] => True
  | Did c x _ _ :: t =>
      write_follows R c last ∧ trace_follows R (observe c x last) t
  end.

(** The bookkeeping of a stored room: the version counts the accepted
    mutations (one per participant, one for the sort, one per message);
    an OPEN room has neither sorted keys nor messages; a room past OPEN has
    at least three sorted keys, pairwise distinct and as many as its
    participants, and no more messages than sorted keys; a MESSAGING room
    has a message. *)
Record bookkeeping (room : Room) : Prop := mk_bookkeeping {
  book_version :
    version room
    = (Z.of_nat (length (participants room))
       + (if bool_decide (status room = OPEN) then 0 else 1)
       + Z.of_nat (length (messages room)))%Z;
  book_open : status room = OPEN → sorted_keys room = [] ∧ messages room = [];
  book_sorted :
    status room ≠ OPEN →
    length (sorted_keys room) = length (participants room)
    ∧ (3 ≤ length (sorted_keys room))%nat
    ∧ NoDup (sorted_keys room);
  book_slots : (length (messages room) ≤ length (sorted_keys room))%nat;
  book_messaging : status room = MESSAGING → messages room ≠ []
}.

(** The invariant machinery once more, for any property [I] of stored
    rooms. *)
Section Invariant.

Variable I : Room → Prop.

Definition store_keeps (w : World) : Prop :=
  ∀ key room, rooms_dict w !! key = Some room → I room.

Definition call_keeps {X} (c : StoreCall X) : Prop :=
  match c with
  | CreateRoom room => I room
  | UpdateRoomWithVersion room expected_version =>
      I (with_version room (expected_version + 1))
  | _ => True
  end.

Definition reply_keeps {X} (c : StoreCall X) : X → Prop :=
  match c in StoreCall X return X → Prop with
  | GetRoom _ => λ r, ∀ room, r = Some room → I room
  | _ => λ _, True
  end.

Fixpoint keeps {E A} (p : Prog E A) : Prop :=
  match p with
  | Return _ | Raise _ => True
  | Call c k => call_keeps c ∧ ∀ x, reply_keeps c x → keeps (k x)
  end.

End Invariant.

(** The sum of a list of delays. *)
Definition total (delays : list Z) : Z := foldr Z.add 0%Z delays.

(** The program that has nothing left to do but give its outcome. *)
Definition finished {E A} (o : Outcome E A) : Prog E A :=
  match o with
  | Returned a => Return a
  | Raised e => Raise e
  end.

(** The requests of a whole exchange, and the world they leave when served
    one after the other from the empty world. *)
Definition exchange_requests : list (Prog HTTPException Response) :=
  [routes.create_room "r1"
     (mkCreateRoomRequest "23" "5" "session-key" (toy_hash "chair-secret"));
   routes.register "r1" (mkRegisterRequest "k1");
   routes.register "r1" (mkRegisterRequest "k2");
   routes.register "r1" (mkRegisterRequest "k3");
   routes.sort_keys toy_hash "r1" (mkSortRequest ["a"; "b"; "c"])
     (Some "chair-secret");
   routes.post_message "r1" (mkMessageRequest "m1");
   routes.post_message "r1" (mkMessageRequest "m2")].

Definition exchange_room : Room :=
  mkRoom "r1" MESSAGING (mkRoomParams "23" "5") "session-key"
         (toy_hash "chair-secret") ["k1"; "k2"; "k3"] ["a"; "b"; "c"]
         ["m1"; "m2"] 0 6.

(** ** The two steps of [_update_room_with_version]

    The method re-reads the room and compares versions (a [get] on the
    dict, through [get_room]), then assigns the version and writes (a
    separate item assignment on the dict).  Other clients of the dict can
    act between the two. *)

(** [current = RoomStore.get_room(room.id)] and the test on it. *)
Definition version_check (room : Room) (expected_version : Z) (w : World)
    : bool * World :=
  let '(current, w) := RoomStore.get_room (id room) w in
  match current with
  | None => (false, w)
  | Some current =>
      if bool_decide (version current ≠ expected_version)
      then (false, w)
      else (true, w)
  end.

(** [room.version = expected_version + 1] and
    [rooms_dict[room.id] = room.model_dump_json()]. *)
Definition write_room (room : Room) (expected_version : Z) (w : World)
    : World :=
  let room := with_version room (expected_version + 1) in
  with_rooms_dict w (<[id room := room]> (rooms_dict w)).

(** The method with [between] acting after the check and before the
    write. *)
Definition update_with_race (between : Interference) (room : Room)
    (expected_version : Z) (w : World) : bool * World :=
  let '(ok, w) := version_check room expected_version w in
  if ok then (true, write_room room expected_version (between w))
  else (false, w).

Definition exec_racing {X} (between : Interference) (c : StoreCall X)
    (w : World) : X * World :=
  match c in StoreCall X return X * World with
  | CreateRoom room => RoomStore.create_room room w
  | GetRoom room_id => RoomStore.get_room room_id w
  | UpdateRoomWithVersion room expected_version =>
      update_with_race between room expected_version w
  | DeleteRoom room_id => RoomStore.delete_room room_id w
  | UtcNow => (utcnow w, w)
  | Sleep ms => ((), mkWorld (rooms_dict w) (utcnow w + ms * 1000))
  end.

(** [race_from p sched w]: each call of [p] takes the next pair of [sched];
    the first interference acts before the call, the second one inside it
    when it is an update, between its check and its write. *)
Fixpoint race_from {E A} (p : Prog E A)
    (sched : list (Interference * Interference)) (w : World) : Run E A :=
  match p with
  | Return a => mkRun (Returned a) w []
  | Raise e => mkRun (Raised e) w []
  | Call c k =>
      let w0 := (hd (quiet, quiet) sched).1 w in
      let r := exec_racing (hd (quiet, quiet) sched).2 c w0 in
      let rest := race_from (k r.1) (tl sched) r.2 in
      mkRun (outcome rest) (final rest) (Did c r.1 w0 r.2 :: trace rest)
  end.

(** The system with the update in two steps: a handler whose version check
    has passed waits, as [Writing], for its write. *)
Inductive Thread : Type :=
| Running (p : Prog HTTPException Response)
| Writing (room : Room) (expected_version : Z)
          (k : bool → Prog HTTPException Response).

Record RaceConfig : Type := mkRaceConfig {
  race_world : World;
  race_threads : list Thread
}.

(** The first step of a call: the whole call, or the check of an update. *)
Definition begin_call {X} (c : StoreCall X)
    : (X → Prog HTTPException Response) → World → Thread * World :=
  match c in StoreCall X
        return (X → Prog HTTPException Response) → World → Thread * World with
  | UpdateRoomWithVersion room expected_version => λ k w,
      if (version_check room expected_version w).1
      then (Writing room expected_version k,
            (version_check room expected_version w).2)
      else (Running (k false), (version_check room expected_version w).2)
  | CreateRoom room => λ k w,
      (Running (k (RoomStore.create_room room w).1),
       (RoomStore.create_room room w).2)
  | GetRoom room_id => λ k w,
      (Running (k (RoomStore.get_room room_id w).1),
       (RoomStore.get_room room_id w).2)
  | DeleteRoom room_id => λ k w,
      (Running (k (RoomStore.delete_room room_id w).1),
       (RoomStore.delete_room room_id w).2)
  | UtcNow => λ k w, (Running (k (utcnow w)), w)
  | Sleep ms => λ k w,
      (Running (k ()), mkWorld (rooms_dict w) (utcnow w + ms * 1000))
  end.

Section RaceSystem.

Variable sha256_hexdigest : string → string.

Inductive race_step : RaceConfig → RaceConfig → Prop :=
| race_request cfg p :
    handler sha256_hexdigest p →
    race_step cfg
      (mkRaceConfig (race_world cfg) (race_threads cfg ++ [Running p]))
| race_call cfg i X (c : StoreCall X) k :
    race_threads cfg !! i = Some (Running (Call c k)) →
    race_step cfg
      (mkRaceConfig (begin_call c k (race_world cfg)).2
         (<[i := (begin_call c k (race_world cfg)).1]> (race_threads cfg)))
| race_write cfg i room expected_version k :
    race_threads cfg !! i = Some (Writing room expected_version k) →
    race_step cfg
      (mkRaceConfig (write_room room expected_version (race_world cfg))
         (<[i := Running (k true)]> (race_threads cfg)))
| race_time cfg now :
    race_step cfg
      (mkRaceConfig (act (ATime now) (race_world cfg)) (race_threads cfg))
| race_delete cfg room_id :
    race_step cfg
      (mkRaceConfig (act (ACall (DeleteRoom room_id)) (race_world cfg))
         (race_threads cfg)).

Definition race_initial (cfg : RaceConfig) : Prop :=
  rooms_dict (race_world cfg) = ∅ ∧ race_threads cfg = [].

Definition race_reachable (cfg : RaceConfig) : Prop :=
  ∃ cfg0, race_initial cfg0 ∧ rtc race_step cfg0 cfg.

End RaceSystem.

(** A thread writes only rooms with the property [I]. *)
Definition thread_keeps (I : Room → Prop) (t : Thread) : Prop :=
  match t with
  | Running p => keeps I p
  | Writing room expected_version k =>
      I (with_version room (expected_version + 1)) ∧ ∀ ok, keeps I (k ok)
  end.

(** The part of [room_inv] that speaks of the record alone. *)
Definition record_inv (room : Room) : Prop :=
  NoDup (participants room)
  ∧ (status room ≠ MESSAGING → messages room = []).

(** Two other clients register, one after the other, each alone. *)
Definition two_registrations : Interference :=
  λ w, final (run_alone (RoomStore.add_participant "r1" "kC")
                (final (run_alone (RoomStore.add_participant "r1" "kB") w))).

(** A room in the middle of the address exchange. *)
Definition messaging_room : Room :=
  mkRoom "r1" MESSAGING (mkRoomParams "23" "5") "session-key" "chair-hash"
         ["k1"; "k2"; "k3"] ["a"; "b"; "c"] ["m1"] 0 5.

Definition messaging_world : World :=
  mkWorld {[ "r1" := messaging_room ]} 1000.

(** * Properties *)

(** ** The storage methods *)

Lemma get_room_Some room_id w room :
  (RoomStore.get_room room_id w).1 = Some room →
  rooms_dict w !! room_id = Some room
  ∧ expired (utcnow w) room = false
  ∧ (RoomStore.get_room room_id w).2 = w.
Proof.
  unfold RoomStore.get_room.
  destruct (rooms_dict w !! room_id) as [r|] eqn:Hr; [|done].
  destruct (expired (utcnow w) r) eqn:He; simpl; [done|].
  by intros [= <-].
Qed.

Lemma get_room_live room_id w room :
  rooms_dict w !! room_id = Some room →
  expired (utcnow w) room = false →
  RoomStore.get_room room_id w = (Some room, w).
Proof. intros Hr He. unfold RoomStore.get_room. by rewrite Hr, He. Qed.

Lemma get_room_absent room_id w :
  rooms_dict w !! room_id = None →
  RoomStore.get_room room_id w = (None, w).
Proof. intros Hr. unfold RoomStore.get_room. by rewrite Hr. Qed.

Lemma get_room_expired room_id w room :
  rooms_dict w !! room_id = Some room →
  expired (utcnow w) room = true →
  RoomStore.get_room room_id w
  = (None, with_rooms_dict w (delete room_id (rooms_dict w))).
Proof. intros Hr He. unfold RoomStore.get_room. by rewrite Hr, He. Qed.

Lemma get_room_evicts_only room_id w :
  evicts_only w (RoomStore.get_room room_id w).2.
Proof.
  unfold RoomStore.get_room.
  destruct (rooms_dict w !! room_id) as [r|] eqn:Hr; [|by left].
  destruct (expired (utcnow w) r) eqn:He; simpl; [|by left].
  right. by exists room_id, r.
Qed.

Lemma update_true room expected_version w :
  (RoomStore._update_room_with_version room expected_version w).1 = true →
  ∃ current,
    rooms_dict w !! id room = Some current
    ∧ expired (utcnow w) current = false
    ∧ version current = expected_version
    ∧ (RoomStore._update_room_with_version room expected_version w).2
      = with_rooms_dict w
          (<[id room := with_version room (expected_version + 1)]>
             (rooms_dict w)).
Proof.
  unfold RoomStore._update_room_with_version.
  destruct (RoomStore.get_room (id room) w) as [[current|] w1] eqn:Hget;
    [|done].
  pose proof (get_room_Some (id room) w current) as Hs.
  rewrite Hget in Hs. simpl in Hs. destruct (Hs eq_refl) as (Hr & He & ->).
  case_bool_decide as Hv; simpl; [done|].
  intros _. exists current. repeat split; try done.
Qed.

Lemma update_false room expected_version w :
  (RoomStore._update_room_with_version room expected_version w).1 = false →
  evicts_only w (RoomStore._update_room_with_version room expected_version w).2.
Proof.
  unfold RoomStore._update_room_with_version.
  pose proof (get_room_evicts_only (id room) w) as He.
  destruct (RoomStore.get_room (id room) w) as [[current|] w1]; simpl in *;
    [|done].
  by case_bool_decide.
Qed.

Lemma update_live room expected_version w current :
  rooms_dict w !! id room = Some current →
  expired (utcnow w) current = false →
  version current = expected_version →
  RoomStore._update_room_with_version room expected_version w
  = (true, with_rooms_dict w
             (<[id room := with_version room (expected_version + 1)]>
                (rooms_dict w))).
Proof.
  intros Hr He Hv. unfold RoomStore._update_room_with_version.
  rewrite (get_room_live _ _ _ Hr He).
  by rewrite bool_decide_false by (intros ?; done).
Qed.

(** ** The shape of the three operations *)

Lemma add_participant_loop_shape attempts room_id encrypted_key :
  cas_shape room_id AtStart
    (RoomStore.add_participant_loop attempts room_id encrypted_key).
Proof.
  induction attempts as [|attempt attempts IH]; simpl.
  - apply cas_Raise.
  - apply cas_read. intros [room|]; simpl; [|apply cas_Raise].
    repeat case_bool_decide; try apply cas_Raise.
    apply cas_update; [done..|]. simpl. by apply cas_sleep.
Qed.

Lemma add_message_loop_shape attempts room_id message_blob :
  cas_shape room_id AtStart
    (RoomStore.add_message_loop attempts room_id message_blob).
Proof.
  induction attempts as [|attempt attempts IH]; simpl.
  - apply cas_Raise.
  - apply cas_read. intros [room|]; simpl; [|apply cas_Raise].
    repeat case_bool_decide; try apply cas_Raise.
    all: apply cas_update; [done..|]; simpl; by apply cas_sleep.
Qed.

Lemma set_sorted_keys_shape room_id sorted_keys :
  cas_shape room_id AtStart (RoomStore.set_sorted_keys room_id sorted_keys).
Proof.
  apply cas_read. intros [room|]; simpl; [|apply cas_Raise].
  repeat case_bool_decide; try apply cas_Raise.
  apply cas_update; [done..|]. apply cas_Raise.
Qed.

Lemma mutate_shape room_id m : cas_shape room_id AtStart (mutate room_id m).
Proof.
  destruct m; simpl.
  - apply add_participant_loop_shape.
  - apply set_sorted_keys_shape.
  - apply add_message_loop_shape.
Qed.

(** ** Runs of a compare-and-swap program *)

Lemma accepted_at_cons room_id e t w :
  accepted_at room_id t w → accepted_at room_id (e :: t) w.
Proof.
  intros (t0 & room & new_room & wr & wr' & before & current & stored & -> & H).
  by exists (e :: t0), room, new_room, wr, wr', before, current, stored.
Qed.

(** A run that returns ends with an accepted write. *)
Lemma cas_shape_returned room_id ph p :
  cas_shape room_id ph p →
  ∀ sched w,
    outcome (run_from p sched w) = Returned () →
    match ph with
    | AfterRead r =>
        ∀ wa wb,
          accepted_at room_id
            (Did (GetRoom room_id) r wa wb :: trace (run_from p sched w))
            (final (run_from p sched w))
    | _ =>
        accepted_at room_id (trace (run_from p sched w))
          (final (run_from p sched w))
    end.
Proof.
  induction 1 as [ph e|k Hk IH|room new_room k Hid Htrue Hfalse IH|ms k Hk IH];
    intros sched w Hout.
  - done.
  - simpl in *. apply IH, Hout.
  - simpl in *. intros wa wb.
    destruct (RoomStore._update_room_with_version new_room (version room)
                (hd quiet sched w)) as [[] w1] eqn:Hupd; simpl in *.
    + rewrite Htrue. simpl.
      pose proof (update_true new_room (version room) (hd quiet sched w)) as Hu.
      rewrite Hupd in Hu. destruct (Hu eq_refl) as (current & Hcur & _ & Hv & Hw).
      simpl in Hw. subst w1.
      exists [], room, new_room, wa, wb, (hd quiet sched w), current,
        (with_version new_room (version room + 1)).
      rewrite <- Hid. repeat split; try done.
      simpl. by rewrite lookup_insert_eq.
    + apply accepted_at_cons, accepted_at_cons. by apply IH.
  - simpl in *. apply accepted_at_cons. by apply IH.
Qed.

(** A run that raises has written nothing: each of its calls left the dict
    as it found it, or removed an expired record. *)
Lemma cas_shape_raised room_id ph p :
  cas_shape room_id ph p →
  ∀ sched w e,
    outcome (run_from p sched w) = Raised e →
    Forall event_evicts_only (trace (run_from p sched w)).
Proof.
  induction 1 as [ph e'|k Hk IH|room new_room k Hid Htrue Hfalse IH|ms k Hk IH];
    intros sched w e Hout; simpl in *.
  - constructor.
  - constructor; [apply get_room_evicts_only|by eapply IH].
  - destruct (RoomStore._update_room_with_version new_room (version room)
                (hd quiet sched w)) as [[] w1] eqn:Hupd; simpl in *.
    + by rewrite Htrue in Hout.
    + constructor; [|by eapply IH].
      pose proof (update_false new_room (version room) (hd quiet sched w)) as Hu.
      rewrite Hupd in Hu. by apply Hu.
  - constructor; [by left|by eapply IH].
Qed.

(** ** Composition of runs *)

Lemma drop_S_tail {A} (n : nat) (l : list A) : drop (S n) l = drop n (tail l).
Proof. destruct l; simpl; [by rewrite drop_nil|done]. Qed.

Lemma run_from_bind {E A B} (p : Prog E A) (f : A → Prog E B) sched w :
  run_from (bind p f) sched w
  = match outcome (run_from p sched w) with
    | Returned a =>
        let r' := run_from (f a) (drop (length (trace (run_from p sched w))) sched)
                    (final (run_from p sched w)) in
        mkRun (outcome r') (final r') (trace (run_from p sched w) ++ trace r')
    | Raised e =>
        mkRun (Raised e) (final (run_from p sched w))
              (trace (run_from p sched w))
    end.
Proof.
  revert sched w. induction p as [a|e|X c k IH]; intros sched w; simpl.
  - rewrite drop_0. by destruct (run_from (f a) sched w).
  - done.
  - rewrite IH.
    destruct (outcome (run_from (k (exec c (hd quiet sched w)).1) (tail sched)
                         (exec c (hd quiet sched w)).2)); simpl; [|done].
    by rewrite drop_S_tail.
Qed.

Lemma run_from_try_except {E E' A} (p : Prog E A) (h : E → Prog E' A) sched w :
  run_from (try_except p h) sched w
  = match outcome (run_from p sched w) with
    | Returned a =>
        mkRun (Returned a) (final (run_from p sched w))
              (trace (run_from p sched w))
    | Raised e =>
        let r' := run_from (h e) (drop (length (trace (run_from p sched w))) sched)
                    (final (run_from p sched w)) in
        mkRun (outcome r') (final r') (trace (run_from p sched w) ++ trace r')
    end.
Proof.
  revert sched w. induction p as [a|e|X c k IH]; intros sched w; simpl.
  - done.
  - rewrite drop_0. by destruct (run_from (h e) sched w).
  - rewrite IH.
    destruct (outcome (run_from (k (exec c (hd quiet sched w)).1) (tail sched)
                         (exec c (hd quiet sched w)).2)); simpl; [done|].
    by rewrite drop_S_tail.
Qed.


Lemma evicts_only_subseteq before after :
  evicts_only before after → rooms_dict after ⊆ rooms_dict before.
Proof.
  intros [->|(key & room & _ & _ & ->)]; [done|apply delete_subseteq].
Qed.

(** With the dict left alone between the calls, a run none of whose calls
    writes can only lose records. *)
Lemma run_from_subseteq {E A} (p : Prog E A) sched w :
  Forall clock_only sched →
  Forall event_evicts_only (trace (run_from p sched w)) →
  rooms_dict (final (run_from p sched w)) ⊆ rooms_dict w.
Proof.
  revert sched w. induction p as [a|e|X c k IH]; intros sched w Hs Ht; simpl.
  - done.
  - done.
  - simpl in Ht. apply Forall_cons in Ht as [Hev Ht].
    etrans; [apply IH; [|done]|].
    { destruct sched; [done|]. by apply Forall_cons in Hs as [_ ?]. }
    etrans; [by apply evicts_only_subseteq|].
    destruct sched as [|i sched]; simpl; [done|].
    apply Forall_cons in Hs as [Hi _]. by rewrite Hi.
Qed.

Lemma get_room_None_iff room_id w :
  (RoomStore.get_room room_id w).1 = None
  ↔ rooms_dict w !! room_id = None
    ∨ ∃ room, rooms_dict w !! room_id = Some room
              ∧ expired (utcnow w) room = true.
Proof.
  unfold RoomStore.get_room.
  destruct (rooms_dict w !! room_id) as [room|] eqn:Hr.
  - destruct (expired (utcnow w) room) eqn:He; simpl.
    + split; [|done]. intros _. right. by exists room.
    + split; [done|]. intros [|(room' & [= <-] & ?)]; congruence.
  - split; [by left|done].
Qed.

(** C9. An invocation of a mutating operation that raises (room not found,
    validation error or concurrent modification), under any interference,
    has written nothing: each of its calls to the store left the dict as it
    found it or removed a record that was expired at that time.  When the
    other clients leave the dict alone, the dict at the end is the dict at
    the start, possibly without such records. *)
Theorem failed_operation_writes_nothing room_id m sched w e :
  outcome (run (mutate room_id m) sched w) = Raised e →
  Forall event_evicts_only (trace (run (mutate room_id m) sched w))
  ∧ (Forall clock_only sched →
     rooms_dict (final (run (mutate room_id m) sched w)) ⊆ rooms_dict w).
Proof.
  intros Hout.
  assert (Forall event_evicts_only (trace (run (mutate room_id m) sched w)))
    as Ht by exact (cas_shape_raised _ _ _ (mutate_shape room_id m) _ _ _ Hout).
  split; [done|]. intros Hs. apply run_from_subseteq; [|done].
  by apply Forall_cons.
Qed.

Lemma failed_operation_writes_nothing_witness :
  outcome (run (mutate "r1" (PostMessage "m1")) [] fresh_world)
  = Raised (ValueError "Cannot send messages before sorting")
  ∧ Forall event_evicts_only
      (trace (run (mutate "r1" (PostMessage "m1")) [] fresh_world))
  ∧ rooms_dict (final (run (mutate "r1" (PostMessage "m1")) [] fresh_world))
    ⊆ rooms_dict fresh_world.
Proof.
  assert (outcome (run (mutate "r1" (PostMessage "m1")) [] fresh_world)
          = Raised (ValueError "Cannot send messages before sorting")) as Hout
    by (vm_compute; reflexivity).
  split; [exact Hout|].
  destruct (failed_operation_writes_nothing "r1" (PostMessage "m1") []
              fresh_world _ Hout) as [Ht Hsub].
  split; [exact Ht|]. apply Hsub. constructor.
Defined.

(** ** The first read of an operation *)

Lemma get_room_of_live w room_id room :
  live w room_id room → RoomStore.get_room room_id w = (Some room, w).
Proof. intros [Hr He]. by apply get_room_live. Qed.





(** C4. For every room that can be read and every list of fewer than three
    sorted keys, set sorted keys raises a validation error at its first
    read, whatever the number of participants, and leaves the world as it
    was: "Minimum 3 participants required" in an OPEN room, "Room is not in
    OPEN state" otherwise. *)
Theorem set_sorted_keys_below_three_fails room_id sorted_keys sched w room :
  live w room_id room →
  (length sorted_keys < 3)%nat →
  outcome (run (RoomStore.set_sorted_keys room_id sorted_keys) sched w)
  = Raised (ValueError (if bool_decide (status room = OPEN)
                        then "Minimum 3 participants required"
                        else "Room is not in OPEN state"))
  ∧ final (run (RoomStore.set_sorted_keys room_id sorted_keys) sched w) = w
  ∧ trace (run (RoomStore.set_sorted_keys room_id sorted_keys) sched w)
    = [Did (GetRoom room_id) (Some room) w w].
Proof.
  intros Hlive Hlen. unfold run. simpl. unfold quiet.
  rewrite (get_room_of_live _ _ _ Hlive). simpl.
  destruct (decide (status room = OPEN)) as [Hs|Hs].
  - rewrite (bool_decide_false (status room ≠ OPEN)) by (intros ?; done).
    rewrite (bool_decide_true (status room = OPEN)) by done.
    by rewrite bool_decide_true by done.
  - rewrite (bool_decide_true (status room ≠ OPEN)) by done.
    by rewrite (bool_decide_false (status room = OPEN)) by done.
Qed.

Lemma set_sorted_keys_below_three_fails_witness :
  live fresh_world "r1" fresh_room
  ∧ (length ["a"; "b"] < 3)%nat
  ∧ participants fresh_room = []
  ∧ outcome (run (RoomStore.set_sorted_keys "r1" ["a"; "b"]) [] fresh_world)
    = Raised (ValueError "Minimum 3 participants required").
Proof.
  assert (live fresh_world "r1" fresh_room) as Hlive by (split; reflexivity).
  assert (length ["a"; "b"] < 3)%nat as Hlen by (simpl; lia).
  split; [exact Hlive|]. split; [exact Hlen|]. split; [reflexivity|].
  apply (set_sorted_keys_below_three_fails "r1" ["a"; "b"] [] fresh_world
           fresh_room Hlive Hlen).
Defined.

(** C5 (amended). For every room that can be read, whose status is not OPEN
    and whose messages are as many as its sorted keys, post message raises
    the slot-exhaustion validation error at its first read and leaves the
    world, hence the messages, as they were.  In an OPEN room the error is
    "Cannot send messages before sorting" instead. *)
Theorem post_message_without_free_slot_fails room_id message_blob sched w room :
  live w room_id room →
  length (messages room) = length (sorted_keys room) →
  outcome (run (RoomStore.add_message room_id message_blob) sched w)
  = Raised (ValueError (if bool_decide (status room = OPEN)
                        then "Cannot send messages before sorting"
                        else slot_exhaustion))
  ∧ final (run (RoomStore.add_message room_id message_blob) sched w) = w
  ∧ trace (run (RoomStore.add_message room_id message_blob) sched w)
    = [Did (GetRoom room_id) (Some room) w w].
Proof.
  intros Hlive Hlen. unfold run. simpl. unfold quiet.
  rewrite (get_room_of_live _ _ _ Hlive). simpl.
  case_bool_decide; [done|].
  by rewrite bool_decide_true by lia.
Qed.

Lemma post_message_without_free_slot_fails_witness :
  live (mkWorld {[ "r1" := with_messages sorted_room ["m1"; "m2"; "m3"] ]} 1000)
       "r1" (with_messages sorted_room ["m1"; "m2"; "m3"])
  ∧ outcome (run (RoomStore.add_message "r1" "m4") []
               (mkWorld {[ "r1" := with_messages sorted_room ["m1"; "m2"; "m3"] ]}
                        1000))
    = Raised (ValueError slot_exhaustion).
Proof.
  assert (live (mkWorld {[ "r1" := with_messages sorted_room ["m1"; "m2"; "m3"] ]}
                        1000)
               "r1" (with_messages sorted_room ["m1"; "m2"; "m3"])) as Hlive
    by (split; reflexivity).
  split; [exact Hlive|].
  apply (post_message_without_free_slot_fails "r1" "m4" [] _ _ Hlive).
  reflexivity.
Defined.

(** C5, as stated, fails: a room just created has as many messages as
    sorted keys (none), and posting a message to it is refused with another
    error than slot exhaustion. *)
Lemma post_message_on_fresh_room_is_not_slot_exhaustion :
  live fresh_world "r1" fresh_room
  ∧ length (messages fresh_room) = length (sorted_keys fresh_room)
  ∧ outcome (run_alone (RoomStore.add_message "r1" "m1") fresh_world)
    = Raised (ValueError "Cannot send messages before sorting")
  ∧ outcome (run_alone (RoomStore.add_message "r1" "m1") fresh_world)
    ≠ Raised (ValueError slot_exhaustion).
Proof.
  split; [split; reflexivity|]. split; [reflexivity|].
  split; [vm_compute; reflexivity|].
  vm_compute. discriminate.
Qed.

(** ** Eviction *)

Lemma exec_keeps_absent {X} (c : StoreCall X) w key :
  rooms_dict w !! key = None →
  creates c ≠ Some key →
  rooms_dict (exec c w).2 !! key = None.
Proof.
  intros Habs Hc. destruct c; simpl in *.
  - rewrite lookup_insert_ne; [done|]. intros Heq. apply Hc. by rewrite Heq.
  - eapply lookup_weaken_None; [done|].
    apply evicts_only_subseteq, get_room_evicts_only.
  - destruct (RoomStore._update_room_with_version room expected_version w).1
      eqn:Hupd.
    + destruct (update_true _ _ _ Hupd) as (current & Hcur & _ & _ & ->).
      simpl. rewrite lookup_insert_ne; [done|]. intros Heq. congruence.
    + eapply lookup_weaken_None; [done|].
      by apply evicts_only_subseteq, update_false.
  - unfold RoomStore.delete_room.
    destruct (rooms_dict w !! room_id); simpl; [|done].
    eapply lookup_weaken_None; [done|apply delete_subseteq].
  - done.
  - done.
Qed.

Lemma act_keeps_absent a w key :
  rooms_dict w !! key = None →
  action_creates a ≠ Some key →
  rooms_dict (act a w) !! key = None.
Proof.
  destruct a as [X c|now]; simpl; [apply exec_keeps_absent|done].
Qed.

Lemma after_keeps_absent later w key :
  rooms_dict w !! key = None →
  Forall (λ a, action_creates a ≠ Some key) later →
  rooms_dict (after later w) !! key = None.
Proof.
  revert w. induction later as [|a later IH]; intros w Habs Hl; [done|].
  apply Forall_cons in Hl as [Ha Hl]. unfold after. simpl.
  apply IH; [|done]. by apply act_keeps_absent.
Qed.

Lemma routes_get_room_absent room_id w :
  rooms_dict w !! room_id = None →
  outcome (run_alone (routes.get_room room_id) w)
  = Raised (mkHTTPException 404 "Room not found").
Proof.
  intros Habs. unfold run_alone, run. simpl. unfold quiet.
  by rewrite (get_room_absent _ _ Habs).
Qed.

(** C6. A stored room created more than thirty days ago
    ([ROOM_TTL_SECONDS]) is not returned by [get_room]: the read answers
    None (404 "Room not found" at the route) and removes the record from
    the dict.  After that, whatever the clients and the clock do, short of
    creating a room under the same identifier, every read of this
    identifier answers None again. *)
Theorem expired_room_is_evicted room_id room w :
  rooms_dict w !! room_id = Some room →
  utcnow w - created_at room > timedelta_seconds ROOM_TTL_SECONDS →
  (RoomStore.get_room room_id w).1 = None
  ∧ rooms_dict (RoomStore.get_room room_id w).2 = delete room_id (rooms_dict w)
  ∧ outcome (run_alone (routes.get_room room_id) w)
    = Raised (mkHTTPException 404 "Room not found")
  ∧ ∀ later,
      Forall (λ a, action_creates a ≠ Some room_id) later →
      RoomStore.get_room room_id
        (after later (RoomStore.get_room room_id w).2)
      = (None, after later (RoomStore.get_room room_id w).2)
      ∧ outcome (run_alone (routes.get_room room_id)
                   (after later (RoomStore.get_room room_id w).2))
        = Raised (mkHTTPException 404 "Room not found").
Proof.
  intros Hr Hage.
  assert (expired (utcnow w) room = true) as He
    by (unfold expired; by rewrite bool_decide_true).
  rewrite (get_room_expired _ _ _ Hr He). simpl.
  split; [done|]. split; [done|]. split.
  - unfold run_alone, run. simpl. unfold quiet.
    by rewrite (get_room_expired _ _ _ Hr He).
  - intros later Hl.
    assert (rooms_dict
              (after later (with_rooms_dict w (delete room_id (rooms_dict w))))
            !! room_id = None) as Habs
      by (apply after_keeps_absent; [apply lookup_delete_eq|done]).
    split; [by apply get_room_absent|by apply routes_get_room_absent].
Qed.

Lemma expired_room_is_evicted_witness :
  rooms_dict (mkWorld {[ "r1" := fresh_room ]} 2592000000001) !! "r1"
  = Some fresh_room
  ∧ (RoomStore.get_room "r1" (mkWorld {[ "r1" := fresh_room ]} 2592000000001)).1
    = None.
Proof.
  split; [reflexivity|].
  apply (expired_room_is_evicted "r1" fresh_room
           (mkWorld {[ "r1" := fresh_room ]} 2592000000001)).
  - reflexivity.
  - vm_compute. reflexivity.
Defined.

(** ** The invariant of stored rooms is kept by the system *)

Lemma safe_bind {E A B} (p : Prog E A) (f : A → Prog E B) :
  safe p → (∀ a, safe (f a)) → safe (bind p f).
Proof.
  intros Hp Hf. induction p as [a|e|X c k IH]; simpl in *; [done..|].
  destruct Hp as [Hc Hk]. split; [done|]. intros x Hx. by apply IH, Hk.
Qed.

Lemma safe_try_except {E E' A} (p : Prog E A) (h : E → Prog E' A) :
  safe p → (∀ e, safe (h e)) → safe (try_except p h).
Proof.
  intros Hp Hh. induction p as [a|e|X c k IH]; simpl in *; [done..|].
  destruct Hp as [Hc Hk]. split; [done|]. intros x Hx. by apply IH, Hk.
Qed.

Lemma add_participant_loop_safe attempts room_id encrypted_key :
  safe (RoomStore.add_participant_loop attempts room_id encrypted_key).
Proof.
  induction attempts as [|attempt attempts IH]; simpl; [done|].
  split; [done|]. intros [room|] Hr; simpl; [|done].
  destruct (Hr room eq_refl) as [Hid Hnd Hmsg Hslots].
  repeat case_bool_decide; simpl; try done.
  split.
  - constructor; simpl; try done.
    apply NoDup_app. split; [done|]. split; [|apply NoDup_singleton].
    intros x Hx ->%list_elem_of_singleton. done.
  - intros [] _; simpl; [done|]. split; [done|]. intros _ _. apply IH.
Qed.

Lemma set_sorted_keys_safe room_id sorted_keys :
  safe (RoomStore.set_sorted_keys room_id sorted_keys).
Proof.
  simpl. split; [done|]. intros [room|] Hr; simpl; [|done].
  destruct (Hr room eq_refl) as [Hid Hnd Hmsg Hslots].
  repeat case_bool_decide; simpl; try done.
  assert (messages room = []) as Hnil.
  { apply Hmsg. destruct (status room); done. }
  split.
  - constructor; simpl; try done. rewrite Hnil. simpl. lia.
  - by intros [] _.
Qed.

Lemma add_message_loop_safe attempts room_id message_blob :
  safe (RoomStore.add_message_loop attempts room_id message_blob).
Proof.
  induction attempts as [|attempt attempts IH]; simpl; [done|].
  split; [done|]. intros [room|] Hr; simpl; [|done].
  destruct (Hr room eq_refl) as [Hid Hnd Hmsg Hslots].
  repeat case_bool_decide; simpl; try done.
  all: split;
    [constructor; simpl; try done; try (by destruct (status room));
       rewrite length_app; simpl; lia
    |intros [] _; simpl; [done|]; split; [done|]; intros _ _; apply IH].
Qed.

Lemma safe_call_bind {E X B} (c : StoreCall X) (f : X → Prog E B) :
  call_safe c → (∀ x, reply_inv c x → safe (f x)) → safe (call c ≫= f).
Proof. intros Hc Hf. split; [done|]. intros x Hx. by apply Hf. Qed.

Lemma handler_safe sha256_hexdigest p : handler sha256_hexdigest p → safe p.
Proof.
  destruct 1.
  - apply safe_call_bind; [done|]. intros now _.
    apply safe_call_bind; [|done]. constructor; simpl; try done.
    apply NoDup_nil_2.
  - apply safe_call_bind; [done|]. by intros [room|] _.
  - apply safe_try_except; [|by intros []].
    apply safe_bind; [apply add_participant_loop_safe|done].
  - apply safe_call_bind; [done|]. by intros [room|] _.
  - apply safe_call_bind; [done|]. intros [room|] _; [|done].
    destruct (negb _); [done|].
    apply safe_try_except; [|by intros []].
    apply safe_bind; [apply set_sorted_keys_safe|done].
  - apply safe_try_except; [|by intros []].
    apply safe_bind; [apply add_message_loop_safe|done].
  - apply safe_call_bind; [done|]. by intros [room|] _.
Qed.

Lemma store_inv_subseteq w w' :
  rooms_dict w' ⊆ rooms_dict w → store_inv w → store_inv w'.
Proof.
  intros Hsub Hinv key room Hr. apply Hinv. by eapply lookup_weaken.
Qed.

Lemma exec_store_inv {X} (c : StoreCall X) w :
  store_inv w → call_safe c →
  store_inv (exec c w).2 ∧ reply_inv c (exec c w).1.
Proof.
  intros Hinv Hc. destruct c; simpl in *.
  - split; [|done]. intros key r. simpl. rewrite lookup_insert.
    case_decide as Hk; [|by apply Hinv]. intros [= <-]. by rewrite <- Hk.
  - split.
    + eapply store_inv_subseteq; [|done].
      apply evicts_only_subseteq, get_room_evicts_only.
    + intros r Hr. apply Hinv. by apply get_room_Some in Hr as (? & _).
  - split; [|done].
    destruct (RoomStore._update_room_with_version room expected_version w).1
      eqn:Hupd.
    + destruct (update_true _ _ _ Hupd) as (current & Hcur & _ & _ & ->).
      intros key r. simpl. rewrite lookup_insert.
      case_decide as Hk; [|by apply Hinv]. intros [= <-]. by rewrite <- Hk.
    + eapply store_inv_subseteq; [|done].
      by apply evicts_only_subseteq, update_false.
  - split; [|done]. unfold RoomStore.delete_room.
    destruct (rooms_dict w !! room_id); simpl; [|done].
    eapply store_inv_subseteq; [|done]. apply delete_subseteq.
  - done.
  - done.
Qed.

Lemma sys_step_inv sha256_hexdigest cfg cfg' :
  sys_step sha256_hexdigest cfg cfg' → config_inv cfg → config_inv cfg'.
Proof.
  intros Hstep [Hstore Hthreads]. destruct Hstep as [cfg p Hp|cfg i X c k Hi|cfg now|cfg room_id].
  - split; [done|]. simpl. apply Forall_app. split; [done|].
    apply Forall_singleton. by eapply handler_safe.
  - pose proof (Forall_lookup_1 _ _ _ _ Hthreads Hi) as [Hc Hk].
    destruct (exec_store_inv c (world cfg) Hstore Hc) as [Hstore' Hreply].
    split; [done|]. simpl. apply Forall_insert; [done|]. by apply Hk.
  - done.
  - split; [|done]. by apply (exec_store_inv (DeleteRoom room_id)).
Qed.

Lemma reachable_inv sha256_hexdigest cfg :
  reachable sha256_hexdigest cfg → config_inv cfg.
Proof.
  intros (cfg0 & [Hempty Hnil] & Hsteps).
  assert (config_inv cfg0) as Hinv0.
  { split; [|by rewrite Hnil]. intros key room. by rewrite Hempty. }
  clear Hempty Hnil. induction Hsteps as [|cfg1 cfg2 cfg3 Hstep _ IH]; [done|].
  apply IH. by eapply sys_step_inv.
Qed.

(** ** Registration *)

Lemma add_participant_alone w room_id room encrypted_key :
  live w room_id room → id room = room_id → status room = OPEN →
  encrypted_key ∉ participants room →
  run_alone (RoomStore.add_participant room_id encrypted_key) w
  = let new_room :=
      with_participants room (participants room ++ [encrypted_key]) in
    let w' :=
      with_rooms_dict w
        (<[room_id := with_version new_room (version room + 1)]> (rooms_dict w)) in
    mkRun (Returned ()) w'
      [Did (GetRoom room_id) (Some room) w w;
       Did (UpdateRoomWithVersion new_room (version room)) true w w'].
Proof.
  intros Hlive Hid Hopen Hnew. unfold run_alone, run. simpl. unfold quiet.
  rewrite (get_room_of_live _ _ _ Hlive). simpl.
  rewrite bool_decide_false by (intros ?; done).
  rewrite bool_decide_false by done. simpl. unfold quiet.
  destruct Hlive as [Hr He].
  rewrite (update_live _ _ w room); simpl; try done; [|by rewrite Hid].
  by rewrite Hid.
Qed.

Lemma add_participant_duplicate sched w room_id room encrypted_key :
  live w room_id room → status room = OPEN →
  encrypted_key ∈ participants room →
  run (RoomStore.add_participant room_id encrypted_key) sched w
  = mkRun (Raised (ValueError "Duplicate registration")) w
          [Did (GetRoom room_id) (Some room) w w].
Proof.
  intros Hlive Hopen Hdup. unfold run. simpl. unfold quiet.
  rewrite (get_room_of_live _ _ _ Hlive). simpl.
  rewrite bool_decide_false by (intros ?; done).
  by rewrite bool_decide_true by done.
Qed.

(** C3. In an OPEN room that can be read, a first registration of the key
    [k] (one that is not among the participants yet), run without
    interference, returns and stores the participants with [k] appended;
    the same registration made again is refused with "Duplicate
    registration", as is any registration of a key already among the
    participants of an OPEN room.  In every state the system can reach, the
    participants of every stored room are free of duplicates. *)
Theorem registration_rejects_duplicates sha256_hexdigest room_id k :
  (∀ w room,
     live w room_id room → id room = room_id → status room = OPEN →
     k ∉ participants room →
     outcome (run_alone (RoomStore.add_participant room_id k) w) = Returned ()
     ∧ rooms_dict (final (run_alone (RoomStore.add_participant room_id k) w))
       = <[room_id := with_version
                        (with_participants room (participants room ++ [k]))
                        (version room + 1)]> (rooms_dict w)
     ∧ ∀ sched,
         outcome (run (RoomStore.add_participant room_id k) sched
                    (final (run_alone (RoomStore.add_participant room_id k) w)))
         = Raised (ValueError "Duplicate registration"))
  ∧ (∀ sched w room,
       live w room_id room → status room = OPEN → k ∈ participants room →
       outcome (run (RoomStore.add_participant room_id k) sched w)
       = Raised (ValueError "Duplicate registration")
       ∧ final (run (RoomStore.add_participant room_id k) sched w) = w)
  ∧ (∀ cfg key room,
       reachable sha256_hexdigest cfg →
       rooms_dict (world cfg) !! key = Some room →
       NoDup (participants room)).
Proof.
  split; [|split].
  - intros w room Hlive Hid Hopen Hnew.
    rewrite (add_participant_alone _ _ _ _ Hlive Hid Hopen Hnew).
    cbv zeta. cbn [outcome final].
    split; [done|]. split; [done|]. intros sched.
    rewrite (add_participant_duplicate sched _ room_id
               (with_version (with_participants room (participants room ++ [k]))
                             (version room + 1)) k); [done| |done|].
    + destruct Hlive as [Hr He]. split; simpl; [apply lookup_insert_eq|done].
    + simpl. set_solver.
  - intros sched w room Hlive Hopen Hdup.
    by rewrite (add_participant_duplicate _ _ _ _ _ Hlive Hopen Hdup).
  - intros cfg key room Hreach Hr.
    destruct (reachable_inv _ _ Hreach) as [Hstore _].
    by destruct (Hstore key room Hr).
Qed.

Lemma registration_rejects_duplicates_witness :
  live fresh_world "r1" fresh_room
  ∧ outcome (run_alone (RoomStore.add_participant "r1" "k1") fresh_world)
    = Returned ()
  ∧ outcome (run (RoomStore.add_participant "r1" "k1") []
               (final (run_alone (RoomStore.add_participant "r1" "k1")
                         fresh_world)))
    = Raised (ValueError "Duplicate registration").
Proof.
  assert (live fresh_world "r1" fresh_room) as Hlive by (split; reflexivity).
  split; [exact Hlive|].
  destruct (registration_rejects_duplicates (λ s, s) "r1" "k1") as [Hfirst _].
  destruct (Hfirst fresh_world fresh_room Hlive eq_refl eq_refl) as (H1 & _ & H2).
  - simpl. apply not_elem_of_nil.
  - split; [exact H1|exact (H2 [])].
Defined.

(** ** Messages *)

Lemma all_calls_trace {E A} Φ (p : Prog E A) sched w :
  all_calls Φ p → Forall (event_call Φ) (trace (run_from p sched w)).
Proof.
  revert sched w. induction p as [a|e|X c k IH]; intros sched w Hp; simpl.
  - constructor.
  - constructor.
  - destruct Hp as [Hc Hk]. constructor; [done|]. by apply IH.
Qed.

Lemma add_message_loop_writes attempts room_id message_blob :
  all_calls (writes_message message_blob)
    (RoomStore.add_message_loop attempts room_id message_blob).
Proof.
  induction attempts as [|attempt attempts IH]; simpl; [done|].
  split; [done|]. intros [room|]; simpl; [|done].
  repeat case_bool_decide; simpl; try done.
  all: split;
    [split; simpl; [by destruct (status room)|by eexists]
    |intros []; simpl; [done|]; split; [done|]; intros _; apply IH].
Qed.

Lemma add_message_alone w room_id room message_blob :
  live w room_id room → id room = room_id → status room = SORTED →
  (length (messages room) < length (sorted_keys room))%nat →
  run_alone (RoomStore.add_message room_id message_blob) w
  = let new_room :=
      with_messages (with_status room MESSAGING)
                    (messages room ++ [message_blob]) in
    let w' :=
      with_rooms_dict w
        (<[room_id := with_version new_room (version room + 1)]> (rooms_dict w)) in
    mkRun (Returned ()) w'
      [Did (GetRoom room_id) (Some room) w w;
       Did (UpdateRoomWithVersion new_room (version room)) true w w'].
Proof.
  intros Hlive Hid Hsorted Hslot. unfold run_alone, run. simpl. unfold quiet.
  rewrite (get_room_of_live _ _ _ Hlive). simpl.
  rewrite bool_decide_false by (by rewrite Hsorted).
  rewrite bool_decide_false by lia.
  rewrite bool_decide_true by done. simpl. unfold quiet.
  destruct Hlive as [Hr He].
  rewrite (update_live _ _ w room); simpl; try done; [|by rewrite Hid].
  by rewrite Hid.
Qed.

(** C7. Every write [add_message] asks of the store, in any attempt and
    under any interference, carries status MESSAGING together with the new
    blob at the end of the messages.  On a SORTED room with a free slot,
    run without interference, the operation returns after one accepted
    write, which stores status MESSAGING and the blob appended.  In every
    state the system can reach, no stored room has status SORTED and a
    non-empty messages list. *)
Theorem first_message_starts_messaging sha256_hexdigest room_id message_blob :
  (∀ sched w,
     Forall (event_call (writes_message message_blob))
       (trace (run (RoomStore.add_message room_id message_blob) sched w)))
  ∧ (∀ w room,
       live w room_id room → id room = room_id → status room = SORTED →
       (length (messages room) < length (sorted_keys room))%nat →
       outcome (run_alone (RoomStore.add_message room_id message_blob) w)
       = Returned ()
       ∧ rooms_dict
           (final (run_alone (RoomStore.add_message room_id message_blob) w))
         = <[room_id := with_version
                          (with_messages (with_status room MESSAGING)
                                         (messages room ++ [message_blob]))
                          (version room + 1)]> (rooms_dict w)
       ∧ length
           (updates
              (trace (run_alone (RoomStore.add_message room_id message_blob) w)))
         = 1%nat)
  ∧ (∀ cfg key room,
       reachable sha256_hexdigest cfg →
       rooms_dict (world cfg) !! key = Some room →
       status room = SORTED → messages room = []).
Proof.
  split; [|split].
  - intros sched w. apply all_calls_trace, add_message_loop_writes.
  - intros w room Hlive Hid Hsorted Hslot.
    by rewrite (add_message_alone _ _ _ _ Hlive Hid Hsorted Hslot).
  - intros cfg key room Hreach Hr Hsorted.
    destruct (reachable_inv _ _ Hreach) as [Hstore _].
    destruct (Hstore key room Hr) as [_ _ Hmsg _].
    apply Hmsg. by rewrite Hsorted.
Qed.

Lemma first_message_starts_messaging_witness :
  live sorted_world "r1" sorted_room
  ∧ outcome (run_alone (RoomStore.add_message "r1" "m1") sorted_world)
    = Returned ()
  ∧ rooms_dict (final (run_alone (RoomStore.add_message "r1" "m1") sorted_world))
    = <[ "r1" := with_version
                   (with_messages (with_status sorted_room MESSAGING)
                                  (messages sorted_room ++ ["m1"]))
                   (version sorted_room + 1)]> (rooms_dict sorted_world).
Proof.
  assert (live sorted_world "r1" sorted_room) as Hlive by (split; reflexivity).
  split; [exact Hlive|].
  destruct (first_message_starts_messaging (λ s, s) "r1" "m1") as (_ & Hfirst & _).
  destruct (Hfirst sorted_world sorted_room Hlive eq_refl eq_refl) as (H1 & H2 & _).
  - simpl. lia.
  - split; [exact H1|exact H2].
Defined.

(** ** Attempts and backoff *)



Lemma set_sorted_keys_attempts room_id sorted_keys sched w :
  (length (updates (trace (run (RoomStore.set_sorted_keys room_id sorted_keys)
                             sched w))) ≤ 1)%nat
  ∧ sleeps (trace (run (RoomStore.set_sorted_keys room_id sorted_keys) sched w))
    = [].
Proof.
  unfold run. simpl.
  destruct (RoomStore.get_room room_id (quiet w)) as [[room|] w1]; simpl;
    [|split; [lia|done]].
  repeat case_bool_decide; simpl; try (split; [lia|done]).
  destruct (RoomStore._update_room_with_version _ _ _) as [[] w2]; simpl;
    (split; [lia|done]).
Qed.




(** ** The access gate *)

(** C10. Whatever the hash function and the stored chair secret hash, the
    access gate refuses the empty secret and the absent secret: both are
    falsy and are turned down before any hash is computed, so also when
    the hash of the empty string is the stored hash. *)
Theorem verify_chair_refuses_empty_secret sha256_hexdigest room :
  routes.verify_chair sha256_hexdigest room (Some "") = false
  ∧ routes.verify_chair sha256_hexdigest room None = false.
Proof. split; reflexivity. Qed.

(** The gate with a hash function that sends the empty string to the stored
    hash: the empty secret is refused all the same, the sort request with
    it is answered 403, and a non-empty secret with that hash is let in. *)
Example verify_chair_empty_secret_colliding_hash :
  toy_hash "" = chair_secret_hash registered_room
  ∧ routes.verify_chair toy_hash registered_room (Some "") = false
  ∧ outcome (run_alone (routes.sort_keys toy_hash "r1"
                          (mkSortRequest ["a"; "b"; "c"]) (Some ""))
               registered_world)
    = Raised (mkHTTPException 403 "Invalid chair secret")
  ∧ routes.verify_chair (λ _, "chair-hash") registered_room (Some "x") = true.
Proof. repeat split; vm_compute; reflexivity. Qed.

(** ** The model at work *)

(** The scenario of a whole exchange: create a room, register three keys,
    upload the sorted keys with the chair secret, post three messages; the
    fourth message is refused. *)
Example whole_exchange :
  let secret := "chair-secret" in
  let request := mkCreateRoomRequest "23" "5" "session-key" (toy_hash secret) in
  (serve [routes.create_room "r1" request;
          routes.register "r1" (mkRegisterRequest "k1");
          routes.register "r1" (mkRegisterRequest "k2");
          routes.register "r1" (mkRegisterRequest "k3");
          routes.sort_keys toy_hash "r1" (mkSortRequest ["a"; "b"; "c"])
            (Some secret);
          routes.post_message "r1" (mkMessageRequest "m1");
          routes.post_message "r1" (mkMessageRequest "m2");
          routes.post_message "r1" (mkMessageRequest "m3");
          routes.post_message "r1" (mkMessageRequest "m4")]
         empty_world)
  = ([Returned (CreateRoomResponse "r1");
      Returned SuccessDict; Returned SuccessDict; Returned SuccessDict;
      Returned SuccessDict;
      Returned SuccessDict; Returned SuccessDict; Returned SuccessDict;
      Raised (mkHTTPException 400 slot_exhaustion)],
     mkWorld {[ "r1" := mkRoom "r1" MESSAGING (mkRoomParams "23" "5")
                          "session-key" (toy_hash secret)
                          ["k1"; "k2"; "k3"] ["a"; "b"; "c"]
                          ["m1"; "m2"; "m3"] 0 7 ]} 0).
Proof. vm_compute. reflexivity. Qed.

(** The system reaches states with rooms in them: the room of a create
    request is stored once the handler has read the clock and called
    [create_room]. *)
Example reachable_created_room sha256_hexdigest uuid request now :
  reachable sha256_hexdigest
    (mkConfig
       (mkWorld {[ uuid := mkRoom uuid OPEN
                             (mkRoomParams (req_P request) (req_g request))
                             (sessionPublicKey request) (chairSecretHash request)
                             [] [] [] now 0 ]} now)
       [Return (CreateRoomResponse uuid)]).
Proof.
  exists (mkConfig (mkWorld ∅ now) []). split; [done|].
  eapply rtc_l.
  { apply (step_request _ _ (routes.create_room uuid request)). constructor. }
  eapply rtc_l.
  { eapply (step_call _ _ 0%nat). reflexivity. }
  eapply rtc_l.
  { eapply (step_call _ _ 0%nat). reflexivity. }
  simpl. rewrite insert_empty. apply rtc_refl.
Qed.

(** * Further properties of the store and the handlers *)

(** ** The storage methods on their own *)

Lemma expired_false_iff now room :
  expired now room = false
  ↔ (now - created_at room ≤ timedelta_seconds ROOM_TTL_SECONDS)%Z.
Proof.
  unfold expired. rewrite bool_decide_eq_false. lia.
Qed.

Lemma get_room_other room_id w key :
  key ≠ room_id →
  rooms_dict (RoomStore.get_room room_id w).2 !! key = rooms_dict w !! key.
Proof.
  intros Hne. unfold RoomStore.get_room.
  destruct (rooms_dict w !! room_id) as [r|]; [|done].
  destruct (expired (utcnow w) r); simpl; [|done].
  by apply lookup_delete_ne.
Qed.

(** X1. [create_room] answers the identifier of the room and stores the room
    under it, replacing what was there and leaving the other keys alone; a
    [get_room] that follows gives the room back as long as its creation
    time is at most thirty days behind the clock, and otherwise answers
    None and removes it again. *)
Theorem create_room_then_get_room room w :
  (RoomStore.create_room room w).1 = id room
  ∧ (∀ key, key ≠ id room →
       rooms_dict (RoomStore.create_room room w).2 !! key = rooms_dict w !! key)
  ∧ ((utcnow w - created_at room ≤ timedelta_seconds ROOM_TTL_SECONDS)%Z →
     RoomStore.get_room (id room) (RoomStore.create_room room w).2
     = (Some room, (RoomStore.create_room room w).2))
  ∧ (utcnow w - created_at room > timedelta_seconds ROOM_TTL_SECONDS →
     RoomStore.get_room (id room) (RoomStore.create_room room w).2
     = (None, with_rooms_dict w (delete (id room) (rooms_dict w)))).
Proof.
  split; [done|]. split.
  { intros key Hne. simpl. by rewrite lookup_insert_ne. }
  split; intros Hage.
  - apply get_room_live; simpl; [apply lookup_insert_eq|].
    by apply expired_false_iff.
  - rewrite (get_room_expired _ _ room); simpl.
    + by rewrite delete_insert_eq.
    + apply lookup_insert_eq.
    + unfold expired. by rewrite bool_decide_true.
Qed.

Lemma create_room_then_get_room_witness :
  (utcnow empty_world - created_at fresh_room
   ≤ timedelta_seconds ROOM_TTL_SECONDS)%Z
  ∧ RoomStore.get_room "r1" (RoomStore.create_room fresh_room empty_world).2
    = (Some fresh_room, (RoomStore.create_room fresh_room empty_world).2).
Proof.
  assert (utcnow empty_world - created_at fresh_room
          ≤ timedelta_seconds ROOM_TTL_SECONDS)%Z as Hage
    by (vm_compute; discriminate).
  split; [exact Hage|].
  destruct (create_room_then_get_room fresh_room empty_world)
    as (_ & _ & Hget & _).
  exact (Hget Hage).
Defined.

(** X2. [delete_room] answers True exactly when the key is in the dict,
    expired or not; afterwards the key is gone, [get_room] answers None, a
    second [delete_room] answers False, and the other keys are as
    before. *)
Theorem delete_room_removes room_id w :
  ((RoomStore.delete_room room_id w).1 = true
   ↔ is_Some (rooms_dict w !! room_id))
  ∧ rooms_dict (RoomStore.delete_room room_id w).2
    = delete room_id (rooms_dict w)
  ∧ utcnow (RoomStore.delete_room room_id w).2 = utcnow w
  ∧ RoomStore.get_room room_id (RoomStore.delete_room room_id w).2
    = (None, (RoomStore.delete_room room_id w).2)
  ∧ (RoomStore.delete_room room_id (RoomStore.delete_room room_id w).2).1
    = false.
Proof.
  assert (rooms_dict (RoomStore.delete_room room_id w).2
          = delete room_id (rooms_dict w)) as Hdict.
  { unfold RoomStore.delete_room.
    destruct (rooms_dict w !! room_id) eqn:Hr; simpl; [done|].
    by rewrite delete_id. }
  assert (rooms_dict (RoomStore.delete_room room_id w).2 !! room_id = None)
    as Habs by (rewrite Hdict; apply lookup_delete_eq).
  split; [|split; [done|split; [|split]]].
  - unfold RoomStore.delete_room.
    destruct (rooms_dict w !! room_id) eqn:Hr; simpl.
    + split; [by eexists|done].
    + split; [done|by intros [? ?]].
  - unfold RoomStore.delete_room. by destruct (rooms_dict w !! room_id).
  - by apply get_room_absent.
  - unfold RoomStore.delete_room at 1. by rewrite Habs.
Qed.

(** X3. [get_room] answers a room exactly when it is stored under the key
    and at most thirty days old (a room of exactly thirty days is still
    answered); then it leaves the world as it is.  In every case it leaves
    the other keys alone, and asking again gives the same answer. *)
Theorem get_room_answers_live_rooms room_id w :
  (∀ room,
     (RoomStore.get_room room_id w).1 = Some room
     ↔ rooms_dict w !! room_id = Some room
       ∧ (utcnow w - created_at room ≤ 30 * 24 * 60 * 60 * 1000000)%Z)
  ∧ (is_Some (RoomStore.get_room room_id w).1 →
     (RoomStore.get_room room_id w).2 = w)
  ∧ (∀ key, key ≠ room_id →
       rooms_dict (RoomStore.get_room room_id w).2 !! key = rooms_dict w !! key)
  ∧ RoomStore.get_room room_id (RoomStore.get_room room_id w).2
    = ((RoomStore.get_room room_id w).1, (RoomStore.get_room room_id w).2).
Proof.
  split; [|split; [|split]].
  - intros room. split.
    + intros Hget. apply get_room_Some in Hget as (Hr & He & _).
      split; [done|]. by apply expired_false_iff in He.
    + intros [Hr Hage]. rewrite (get_room_live _ _ room); [done..|].
      by apply expired_false_iff.
  - intros [room Hget]. by apply get_room_Some in Hget as (_ & _ & ?).
  - intros key Hne. by apply get_room_other.
  - destruct (RoomStore.get_room room_id w).1 as [room|] eqn:Hget.
    + apply get_room_Some in Hget as (Hr & He & ->). by apply get_room_live.
    + apply get_room_absent.
      apply get_room_None_iff in Hget as [Habs|(room & Hr & He)].
      * by rewrite get_room_absent.
      * rewrite (get_room_expired _ _ _ Hr He). simpl. apply lookup_delete_eq.
Qed.

Lemma get_room_answers_live_rooms_witness :
  is_Some (RoomStore.get_room "r1"
             (mkWorld {[ "r1" := fresh_room ]} 2592000000000)).1
  ∧ (RoomStore.get_room "r1" (mkWorld {[ "r1" := fresh_room ]} 2592000000000)).2
    = mkWorld {[ "r1" := fresh_room ]} 2592000000000.
Proof.
  assert (is_Some (RoomStore.get_room "r1"
                     (mkWorld {[ "r1" := fresh_room ]} 2592000000000)).1)
    as Hsome by (exists fresh_room; vm_compute; reflexivity).
  split; [exact Hsome|].
  destruct (get_room_answers_live_rooms "r1"
              (mkWorld {[ "r1" := fresh_room ]} 2592000000000))
    as (_ & Hsame & _).
  exact (Hsame Hsome).
Defined.




(** ** The three operations without contention *)

Lemma size_list_to_set_le (l : list string) :
  (size (list_to_set l : gset string) ≤ length l)%nat.
Proof.
  induction l as [|a l IH].
  { by rewrite list_to_set_nil, size_empty. }
  rewrite list_to_set_cons, length_cons.
  rewrite size_union_alt, size_singleton.
  assert (list_to_set l ∖ {[a]} ⊆ (list_to_set l : gset string)) as Hsub
    by (by apply subseteq_difference_l).
  apply subseteq_size in Hsub. lia.
Qed.

(** Python's [len(l) != len(set(l))] is the test for a repeated element. *)
Lemma length_size_NoDup (l : list string) :
  length l = size (list_to_set l : gset string) ↔ NoDup l.
Proof.
  split; [|intros Hnd; by rewrite size_list_to_set].
  induction l as [|a l IH]; [intros _; constructor|].
  rewrite list_to_set_cons, length_cons.
  intros Hlen. pose proof (size_list_to_set_le l) as Hle.
  destruct (decide (a ∈ l)) as [Hin|Hnin].
  - assert ({[a]} ∪ list_to_set l = (list_to_set l : gset string)) as Heq
      by (by apply subseteq_union_1_L, singleton_subseteq_l,
               elem_of_list_to_set).
    rewrite Heq in Hlen. lia.
  - rewrite size_union in Hlen
      by (by apply disjoint_singleton_l; rewrite elem_of_list_to_set).
    rewrite size_singleton in Hlen.
    constructor; [done|]. apply IH. lia.
Qed.


Lemma set_sorted_keys_alone_run w room_id room sorted_keys :
  live w room_id room → id room = room_id →
  run_alone (RoomStore.set_sorted_keys room_id sorted_keys) w
  = if bool_decide (status room ≠ OPEN)
    then mkRun (Raised (ValueError "Room is not in OPEN state")) w
               [Did (GetRoom room_id) (Some room) w w]
    else if bool_decide (length sorted_keys < 3)%nat
    then mkRun (Raised (ValueError "Minimum 3 participants required")) w
               [Did (GetRoom room_id) (Some room) w w]
    else if bool_decide (length sorted_keys ≠ length (participants room))
    then mkRun (Raised (ValueError
                  ("Sorted keys count (" +:+ pretty (length sorted_keys)
                   +:+ ") must match participants count ("
                   +:+ pretty (length (participants room)) +:+ ")"))) w
               [Did (GetRoom room_id) (Some room) w w]
    else if bool_decide
              (length sorted_keys ≠ size (list_to_set sorted_keys : gset string))
    then mkRun (Raised (ValueError "Duplicate keys in sorted list")) w
               [Did (GetRoom room_id) (Some room) w w]
    else
      let new_room := with_status (with_sorted_keys room sorted_keys) SORTED in
      let w' :=
        with_rooms_dict w
          (<[room_id := with_version new_room (version room + 1)]>
             (rooms_dict w)) in
      mkRun (Returned ()) w'
        [Did (GetRoom room_id) (Some room) w w;
         Did (UpdateRoomWithVersion new_room (version room)) true w w'].
Proof.
  intros Hlive Hid. unfold run_alone, run. simpl. unfold quiet.
  rewrite (get_room_of_live _ _ _ Hlive). simpl.
  repeat case_bool_decide; simpl; try done. unfold quiet.
  destruct Hlive as [Hr He].
  rewrite (update_live _ _ w room); simpl; try done; [|by rewrite Hid].
  by rewrite Hid.
Qed.

Lemma add_message_alone_run w room_id room message_blob :
  live w room_id room → id room = room_id →
  run_alone (RoomStore.add_message room_id message_blob) w
  = if bool_decide (status room = OPEN)
    then mkRun (Raised (ValueError "Cannot send messages before sorting")) w
               [Did (GetRoom room_id) (Some room) w w]
    else if bool_decide (length (sorted_keys room) ≤ length (messages room))%nat
    then mkRun (Raised (ValueError slot_exhaustion)) w
               [Did (GetRoom room_id) (Some room) w w]
    else
      let new_room :=
        with_messages (with_status room MESSAGING)
                      (messages room ++ [message_blob]) in
      let w' :=
        with_rooms_dict w
          (<[room_id := with_version new_room (version room + 1)]>
             (rooms_dict w)) in
      mkRun (Returned ()) w'
        [Did (GetRoom room_id) (Some room) w w;
         Did (UpdateRoomWithVersion new_room (version room)) true w w'].
Proof.
  intros Hlive Hid. unfold run_alone, run. simpl. unfold quiet.
  rewrite (get_room_of_live _ _ _ Hlive). simpl.
  destruct Hlive as [Hr He].
  destruct (decide (status room = OPEN)) as [Hopen|Hopen].
  { by rewrite bool_decide_true. }
  rewrite (bool_decide_false (status room = OPEN)) by done.
  destruct (decide (length (sorted_keys room) ≤ length (messages room))%nat)
    as [Hfull|Hfree].
  { by rewrite bool_decide_true. }
  rewrite (bool_decide_false _ Hfree).
  assert ((if bool_decide (status room = SORTED)
           then with_status room MESSAGING else room)
          = with_status room MESSAGING) as ->.
  { case_bool_decide; [done|].
    destruct room as [? [] ? ? ? ? ? ? ? ?]; simpl in *; done. }
  simpl. unfold quiet.
  rewrite (update_live _ _ w room); simpl; try done; [|by rewrite Hid].
  by rewrite Hid.
Qed.

(** X6. Once a room has left status OPEN, register participant is refused
    with "Registration is closed" at its first read, whatever the key (new
    or already registered) and whatever the version; the world is left as
    it was. *)
Theorem registration_closed_after_open room_id encrypted_key sched w room :
  live w room_id room →
  status room ≠ OPEN →
  run (RoomStore.add_participant room_id encrypted_key) sched w
  = mkRun (Raised (ValueError "Registration is closed")) w
          [Did (GetRoom room_id) (Some room) w w].
Proof.
  intros Hlive Hclosed. unfold run. simpl. unfold quiet.
  rewrite (get_room_of_live _ _ _ Hlive). simpl.
  by rewrite bool_decide_true.
Qed.

Lemma registration_closed_after_open_witness :
  live sorted_world "r1" sorted_room
  ∧ run (RoomStore.add_participant "r1" "k9") [] sorted_world
    = mkRun (Raised (ValueError "Registration is closed")) sorted_world
            [Did (GetRoom "r1") (Some sorted_room) sorted_world sorted_world].
Proof.
  assert (live sorted_world "r1" sorted_room) as Hlive by (split; reflexivity).
  split; [exact Hlive|].
  apply (registration_closed_after_open "r1" "k9" [] sorted_world sorted_room
           Hlive).
  discriminate.
Defined.

(** X7. In an OPEN room, a list of at least three sorted keys whose length
    is not the number of participants is refused at the first read with a
    validation error that names both counts; the world is left as it
    was. *)
Theorem set_sorted_keys_count_mismatch room_id sorted_keys sched w room :
  live w room_id room →
  status room = OPEN →
  (3 ≤ length sorted_keys)%nat →
  length sorted_keys ≠ length (participants room) →
  run (RoomStore.set_sorted_keys room_id sorted_keys) sched w
  = mkRun (Raised (ValueError
             ("Sorted keys count (" +:+ pretty (length sorted_keys)
              +:+ ") must match participants count ("
              +:+ pretty (length (participants room)) +:+ ")"))) w
          [Did (GetRoom room_id) (Some room) w w].
Proof.
  intros Hlive Hopen Hmin Hcount. unfold run. simpl. unfold quiet.
  rewrite (get_room_of_live _ _ _ Hlive). simpl.
  rewrite bool_decide_false by (intros ?; done).
  rewrite bool_decide_false by lia.
  by rewrite bool_decide_true.
Qed.

Lemma set_sorted_keys_count_mismatch_witness :
  live registered_world "r1" registered_room
  ∧ outcome (run (RoomStore.set_sorted_keys "r1" ["a"; "b"; "c"; "d"]) []
               registered_world)
    = Raised (ValueError
                "Sorted keys count (4) must match participants count (3)").
Proof.
  assert (live registered_world "r1" registered_room) as Hlive
    by (split; reflexivity).
  split; [exact Hlive|].
  rewrite (set_sorted_keys_count_mismatch "r1" ["a"; "b"; "c"; "d"] []
             registered_world registered_room Hlive eq_refl).
  - vm_compute. reflexivity.
  - simpl. lia.
  - simpl. lia.
Defined.

(** X8. In an OPEN room, a list of sorted keys of the right length in which
    a key occurs twice is refused at the first read with "Duplicate keys in
    sorted list"; the world is left as it was. *)
Theorem set_sorted_keys_rejects_repeated_key room_id sorted_keys sched w room :
  live w room_id room →
  status room = OPEN →
  (3 ≤ length sorted_keys)%nat →
  length sorted_keys = length (participants room) →
  ¬ NoDup sorted_keys →
  run (RoomStore.set_sorted_keys room_id sorted_keys) sched w
  = mkRun (Raised (ValueError "Duplicate keys in sorted list")) w
          [Did (GetRoom room_id) (Some room) w w].
Proof.
  intros Hlive Hopen Hmin Hcount Hdup. unfold run. simpl. unfold quiet.
  rewrite (get_room_of_live _ _ _ Hlive). simpl.
  rewrite bool_decide_false by (intros ?; done).
  rewrite bool_decide_false by lia.
  rewrite bool_decide_false by (intros ?; done).
  rewrite bool_decide_true; [done|].
  intros Heq. by apply Hdup, length_size_NoDup.
Qed.

Lemma set_sorted_keys_rejects_repeated_key_witness :
  live registered_world "r1" registered_room
  ∧ ¬ NoDup ["a"; "b"; "a"]
  ∧ outcome (run (RoomStore.set_sorted_keys "r1" ["a"; "b"; "a"]) []
               registered_world)
    = Raised (ValueError "Duplicate keys in sorted list").
Proof.
  assert (live registered_world "r1" registered_room) as Hlive
    by (split; reflexivity).
  assert (¬ NoDup ["a"; "b"; "a"]) as Hdup.
  { intros Hnd. apply (bool_decide_pack _) in Hnd. vm_compute in Hnd.
    exact Hnd. }
  split; [exact Hlive|]. split; [exact Hdup|].
  rewrite (set_sorted_keys_rejects_repeated_key "r1" ["a"; "b"; "a"] []
             registered_world registered_room Hlive eq_refl).
  - reflexivity.
  - simpl. lia.
  - reflexivity.
  - exact Hdup.
Defined.

(** X9. Without contention, set sorted keys on a room stored under its
    identifier returns exactly when the room is OPEN and the keys are at
    least three, as many as the participants, and pairwise distinct.  It
    then has stored, under the same key, the room with the given sorted
    keys, status SORTED and the version plus one, and every other field
    as it was. *)
Theorem set_sorted_keys_accepts room_id sorted_keys w room :
  live w room_id room →
  id room = room_id →
  (outcome (run_alone (RoomStore.set_sorted_keys room_id sorted_keys) w)
   = Returned ()
   ↔ status room = OPEN
     ∧ (3 ≤ length sorted_keys)%nat
     ∧ length sorted_keys = length (participants room)
     ∧ NoDup sorted_keys)
  ∧ (outcome (run_alone (RoomStore.set_sorted_keys room_id sorted_keys) w)
     = Returned () →
     final (run_alone (RoomStore.set_sorted_keys room_id sorted_keys) w)
     = mkWorld
         (<[room_id :=
              mkRoom (id room) SORTED (params room) (session_public_key room)
                     (chair_secret_hash room) (participants room) sorted_keys
                     (messages room) (created_at room) (version room + 1)]>
            (rooms_dict w))
         (utcnow w)).
Proof.
  intros Hlive Hid.
  rewrite (set_sorted_keys_alone_run _ _ _ _ Hlive Hid).
  destruct (decide (status room = OPEN)) as [Hopen|Hopen];
    [rewrite (bool_decide_false (status room ≠ OPEN)) by (intros ?; done)
    |rewrite (bool_decide_true (status room ≠ OPEN)) by done; simpl;
     split; [split; [done|by intros (? & _)]|done]].
  destruct (decide (length sorted_keys < 3)%nat) as [Hmin|Hmin];
    [rewrite bool_decide_true by done; simpl;
     split; [split; [done|intros (_ & ? & _); lia]|done]
    |rewrite (bool_decide_false _ Hmin)].
  destruct (decide (length sorted_keys = length (participants room)))
    as [Hcount|Hcount];
    [rewrite bool_decide_false by (intros ?; done)
    |rewrite bool_decide_true by done; simpl;
     split; [split; [done|by intros (_ & _ & ? & _)]|done]].
  destruct (decide (NoDup sorted_keys)) as [Hnd|Hnd].
  - rewrite bool_decide_false
      by (intros Hne; by apply Hne, length_size_NoDup).
    simpl. split; [|done]. split; [intros _|done].
    repeat split; try done. lia.
  - rewrite bool_decide_true
      by (intros Heq; by apply Hnd, length_size_NoDup).
    simpl. split; [split; [done|by intros (_ & _ & _ & ?)]|done].
Qed.

Lemma set_sorted_keys_accepts_witness :
  live registered_world "r1" registered_room
  ∧ outcome (run_alone (RoomStore.set_sorted_keys "r1" ["a"; "b"; "c"])
               registered_world)
    = Returned ()
  ∧ rooms_dict
      (final (run_alone (RoomStore.set_sorted_keys "r1" ["a"; "b"; "c"])
                registered_world)) !! "r1"
    = Some (mkRoom "r1" SORTED (mkRoomParams "23" "5") "session-key"
              "chair-hash" ["k1"; "k2"; "k3"] ["a"; "b"; "c"] [] 0 4).
Proof.
  assert (live registered_world "r1" registered_room) as Hlive
    by (split; reflexivity).
  destruct (set_sorted_keys_accepts "r1" ["a"; "b"; "c"] registered_world
              registered_room Hlive eq_refl) as [Hiff Hfinal].
  assert (outcome (run_alone (RoomStore.set_sorted_keys "r1" ["a"; "b"; "c"])
                     registered_world) = Returned ()) as Hout.
  { apply Hiff. split; [reflexivity|]. split; [simpl; lia|].
    split; [reflexivity|]. apply (bool_decide_unpack _). vm_compute.
    reflexivity. }
  split; [exact Hlive|]. split; [exact Hout|].
  rewrite (Hfinal Hout). reflexivity.
Defined.

(** X10. Without contention, post message on a room stored under its
    identifier returns exactly when the room has left status OPEN and holds
    fewer messages than sorted keys.  It then has stored, under the same
    key, the room with the blob appended to the messages, status MESSAGING
    and the version plus one, and every other field as it was.  In an OPEN
    room it is refused with "Cannot send messages before sorting", however
    many messages and sorted keys the room holds. *)
Theorem add_message_accepts room_id message_blob w room :
  live w room_id room →
  id room = room_id →
  (outcome (run_alone (RoomStore.add_message room_id message_blob) w)
   = Returned ()
   ↔ status room ≠ OPEN
     ∧ (length (messages room) < length (sorted_keys room))%nat)
  ∧ (outcome (run_alone (RoomStore.add_message room_id message_blob) w)
     = Returned () →
     final (run_alone (RoomStore.add_message room_id message_blob) w)
     = mkWorld
         (<[room_id :=
              mkRoom (id room) MESSAGING (params room)
                     (session_public_key room) (chair_secret_hash room)
                     (participants room) (sorted_keys room)
                     (messages room ++ [message_blob]) (created_at room)
                     (version room + 1)]>
            (rooms_dict w))
         (utcnow w))
  ∧ (status room = OPEN →
     run_alone (RoomStore.add_message room_id message_blob) w
     = mkRun (Raised (ValueError "Cannot send messages before sorting")) w
             [Did (GetRoom room_id) (Some room) w w]).
Proof.
  intros Hlive Hid.
  rewrite (add_message_alone_run _ _ _ _ Hlive Hid).
  destruct (decide (status room = OPEN)) as [Hopen|Hopen];
    [rewrite (bool_decide_true (status room = OPEN)) by done; simpl;
     split; [split; [done|by intros (? & _)]|done]
    |rewrite (bool_decide_false (status room = OPEN)) by done].
  destruct (decide (length (sorted_keys room) ≤ length (messages room))%nat)
    as [Hfull|Hfree].
  - rewrite bool_decide_true by done. simpl.
    split; [split; [done|intros (_ & ?); lia]|done].
  - rewrite (bool_decide_false _ Hfree). simpl.
    split; [split; [intros _; split; [done|lia]|done]|done].
Qed.

Lemma add_message_accepts_witness :
  live sorted_world "r1" sorted_room
  ∧ outcome (run_alone (RoomStore.add_message "r1" "m1") sorted_world)
    = Returned ()
  ∧ rooms_dict
      (final (run_alone (RoomStore.add_message "r1" "m1") sorted_world)) !! "r1"
    = Some (mkRoom "r1" MESSAGING (mkRoomParams "23" "5") "session-key"
              "chair-hash" ["k1"; "k2"; "k3"] ["a"; "b"; "c"] ["m1"] 0 5).
Proof.
  assert (live sorted_world "r1" sorted_room) as Hlive by (split; reflexivity).
  destruct (add_message_accepts "r1" "m1" sorted_world sorted_room Hlive
              eq_refl) as (Hiff & Hfinal & _).
  assert (outcome (run_alone (RoomStore.add_message "r1" "m1") sorted_world)
          = Returned ()) as Hout.
  { apply Hiff. split; [discriminate|simpl; lia]. }
  split; [exact Hlive|]. split; [exact Hout|].
  rewrite (Hfinal Hout). reflexivity.
Defined.



(** ** The handlers *)

Lemma run_from_handler (op : Prog Exn unit) sched w :
  run_from (try_except (op;; Return SuccessDict) routes.except_store_errors)
    sched w
  = mkRun (respond (outcome (run_from op sched w)))
          (final (run_from op sched w)) (trace (run_from op sched w)).
Proof.
  rewrite run_from_try_except.
  change (op;; Return SuccessDict) with (bind op (λ _, Return SuccessDict)).
  rewrite run_from_bind.
  destruct (outcome (run_from op sched w)) as [[]|[msg|msg]]; simpl;
    by rewrite app_nil_r.
Qed.

Lemma run_Call {E A X} (c : StoreCall X) (k : X → Prog E A) sched w x w1 :
  exec c w = (x, w1) →
  run (Call c k) sched w
  = mkRun (outcome (run_from (k x) sched w1)) (final (run_from (k x) sched w1))
          (Did c x w w1 :: trace (run_from (k x) sched w1)).
Proof. intros Hc. unfold run. simpl. unfold quiet. by rewrite Hc. Qed.

(** X12. The register and message handlers make the calls to the store of
    the operation they wrap, no more and no fewer, and end in the same
    world; they answer [{"success": True}] when the operation returns, 400
    with the message of a [ValueError], and 409 with the message of a
    concurrent-modification error. *)
Theorem mutating_handlers_translate_outcomes room_id sched w :
  (∀ request,
     run (routes.register room_id request) sched w
     = mkRun
         (respond (outcome (run (RoomStore.add_participant room_id
                                   (encryptedKey request)) sched w)))
         (final (run (RoomStore.add_participant room_id
                        (encryptedKey request)) sched w))
         (trace (run (RoomStore.add_participant room_id
                        (encryptedKey request)) sched w)))
  ∧ (∀ request,
       run (routes.post_message room_id request) sched w
       = mkRun
           (respond (outcome (run (RoomStore.add_message room_id
                                     (blob request)) sched w)))
           (final (run (RoomStore.add_message room_id (blob request))
                     sched w))
           (trace (run (RoomStore.add_message room_id (blob request))
                     sched w))).
Proof.
  split; intros request; unfold run; apply run_from_handler.
Qed.

(** X13. The sort handler answers 404 when the room cannot be read, and 403
    when the access gate refuses the secret: that is, unless the secret is
    a non-empty string whose hash is the stored chair secret hash.  In both
    cases it has made its one read and never called set sorted keys.  When
    the gate lets the secret in, what follows the read is set sorted keys,
    answered as the other mutating handlers answer. *)
Theorem sort_handler_checks_chair_first sha256_hexdigest room_id request
    x_chair_secret sched w :
  ((RoomStore.get_room room_id w).1 = None →
   run (routes.sort_keys sha256_hexdigest room_id request x_chair_secret)
     sched w
   = mkRun (Raised (mkHTTPException 404 "Room not found"))
           (RoomStore.get_room room_id w).2
           [Did (GetRoom room_id) None w (RoomStore.get_room room_id w).2])
  ∧ (∀ room,
       live w room_id room →
       (routes.verify_chair sha256_hexdigest room x_chair_secret = true
        ↔ ∃ secret, x_chair_secret = Some secret ∧ secret ≠ ""
                    ∧ sha256_hexdigest secret = chair_secret_hash room)
       ∧ (routes.verify_chair sha256_hexdigest room x_chair_secret = false →
          run (routes.sort_keys sha256_hexdigest room_id request
                 x_chair_secret) sched w
          = mkRun (Raised (mkHTTPException 403 "Invalid chair secret")) w
                  [Did (GetRoom room_id) (Some room) w w])
       ∧ (routes.verify_chair sha256_hexdigest room x_chair_secret = true →
          run (routes.sort_keys sha256_hexdigest room_id request
                 x_chair_secret) sched w
          = mkRun
              (respond (outcome (run_from
                 (RoomStore.set_sorted_keys room_id (sortedKeys request))
                 sched w)))
              (final (run_from
                 (RoomStore.set_sorted_keys room_id (sortedKeys request))
                 sched w))
              (Did (GetRoom room_id) (Some room) w w
               :: trace (run_from
                    (RoomStore.set_sorted_keys room_id (sortedKeys request))
                    sched w)))).
Proof.
  split.
  - intros Hget. unfold run. simpl. unfold quiet. by rewrite Hget.
  - intros room Hlive. split; [|split].
    + destruct x_chair_secret as [[|a secret]|]; simpl.
      * split; [done|]. by intros (? & [= <-] & ? & _).
      * rewrite bool_decide_eq_true. split.
        -- intros Hh. by eexists.
        -- by intros (? & [= <-] & _ & ?).
      * split; [done|]. by intros (? & ? & _).
    + intros Hv. unfold run. simpl. unfold quiet.
      rewrite (get_room_of_live _ _ _ Hlive). simpl. by rewrite Hv.
    + intros Hv.
      change (routes.sort_keys sha256_hexdigest room_id request x_chair_secret)
        with (Call (GetRoom room_id) (λ r,
                match r with
                | None => Raise (mkHTTPException 404 "Room not found")
                | Some room =>
                    if negb (routes.verify_chair sha256_hexdigest room
                               x_chair_secret)
                    then Raise (mkHTTPException 403 "Invalid chair secret")
                    else try_except
                           (RoomStore.set_sorted_keys room_id
                              (sortedKeys request);; Return SuccessDict)
                           routes.except_store_errors
                end)).
      rewrite (run_Call _ _ _ _ (Some room) w)
        by exact (get_room_of_live _ _ _ Hlive).
      rewrite Hv. cbn [negb]. by rewrite run_from_handler.
Qed.

Lemma sort_handler_checks_chair_first_witness :
  live registered_world "r1" registered_room
  ∧ routes.verify_chair toy_hash registered_room (Some "guess") = false
  ∧ run (routes.sort_keys toy_hash "r1" (mkSortRequest ["a"; "b"; "c"])
           (Some "guess")) [] registered_world
    = mkRun (Raised (mkHTTPException 403 "Invalid chair secret"))
            registered_world
            [Did (GetRoom "r1") (Some registered_room) registered_world
                 registered_world].
Proof.
  assert (live registered_world "r1" registered_room) as Hlive
    by (split; reflexivity).
  assert (routes.verify_chair toy_hash registered_room (Some "guess") = false)
    as Hv by (vm_compute; reflexivity).
  split; [exact Hlive|]. split; [exact Hv|].
  destruct (sort_handler_checks_chair_first toy_hash "r1"
              (mkSortRequest ["a"; "b"; "c"]) (Some "guess") []
              registered_world) as [_ Hroom].
  destruct (Hroom registered_room Hlive) as (_ & Hrefused & _).
  exact (Hrefused Hv).
Defined.

Lemma read_handlers_live room_id sched w room :
  live w room_id room →
  run (routes.get_room room_id) sched w
  = mkRun (Returned (RoomResponse_
             (mkRoomResponse (id room) (RoomStatus_value (status room))
                (params room) (session_public_key room)
                (length (participants room)) (sorted_keys room)
                (messages room))))
          w [Did (GetRoom room_id) (Some room) w w]
  ∧ run (routes.get_participants room_id) sched w
    = mkRun (Returned (ParticipantsResponse (participants room)))
            w [Did (GetRoom room_id) (Some room) w w]
  ∧ run (routes.get_messages room_id) sched w
    = mkRun (Returned (MessagesResponse (messages room)))
            w [Did (GetRoom room_id) (Some room) w w].
Proof.
  intros Hlive. unfold run. simpl. unfold quiet.
  by rewrite (get_room_of_live _ _ _ Hlive).
Qed.

(** X14. The three read handlers make one read and never write: they end
    in the world [get_room] leaves.  For a room that can be read they
    answer its public view (identifier, status name, parameters, session
    key, number of participants, sorted keys, messages), its participants,
    its messages; when [get_room] answers None they answer 404 "Room not
    found". *)
Theorem read_handlers_answer room_id sched w :
  (∀ room,
     live w room_id room →
     run (routes.get_room room_id) sched w
     = mkRun (Returned (RoomResponse_
                (mkRoomResponse (id room) (RoomStatus_value (status room))
                   (params room) (session_public_key room)
                   (length (participants room)) (sorted_keys room)
                   (messages room))))
             w [Did (GetRoom room_id) (Some room) w w]
     ∧ run (routes.get_participants room_id) sched w
       = mkRun (Returned (ParticipantsResponse (participants room)))
               w [Did (GetRoom room_id) (Some room) w w]
     ∧ run (routes.get_messages room_id) sched w
       = mkRun (Returned (MessagesResponse (messages room)))
               w [Did (GetRoom room_id) (Some room) w w])
  ∧ ((RoomStore.get_room room_id w).1 = None →
     run (routes.get_room room_id) sched w
     = mkRun (Raised (mkHTTPException 404 "Room not found"))
             (RoomStore.get_room room_id w).2
             [Did (GetRoom room_id) None w (RoomStore.get_room room_id w).2]
     ∧ run (routes.get_participants room_id) sched w
       = run (routes.get_room room_id) sched w
     ∧ run (routes.get_messages room_id) sched w
       = run (routes.get_room room_id) sched w)
  ∧ final (run (routes.get_room room_id) sched w)
    = (RoomStore.get_room room_id w).2
  ∧ final (run (routes.get_participants room_id) sched w)
    = (RoomStore.get_room room_id w).2
  ∧ final (run (routes.get_messages room_id) sched w)
    = (RoomStore.get_room room_id w).2.
Proof.
  split; [|split].
  - intros room Hlive. by apply read_handlers_live.
  - intros Hget. unfold run. simpl. unfold quiet. by rewrite Hget.
  - unfold run. simpl. unfold quiet.
    by destruct (RoomStore.get_room room_id w).1.
Qed.

Lemma read_handlers_answer_witness :
  live messaging_world "r1" messaging_room
  ∧ outcome (run (routes.get_room "r1") [] messaging_world)
    = Returned (RoomResponse_
                  (mkRoomResponse "r1" "MESSAGING" (mkRoomParams "23" "5")
                     "session-key" 3 ["a"; "b"; "c"] ["m1"])).
Proof.
  assert (live messaging_world "r1" messaging_room) as Hlive
    by (split; reflexivity).
  split; [exact Hlive|].
  destruct (read_handlers_answer "r1" [] messaging_world) as [Hroom _].
  destruct (Hroom messaging_room Hlive) as [-> _]. reflexivity.
Defined.

(** X15. The create handler never fails: it answers the identifier drawn
    for the room and stores under it a room in status OPEN, with the
    parameters, session key and chair secret hash of the request, no
    participants, sorted keys or messages, version 0, created at the time
    the handler read the clock.  Served alone, it leaves a world in which
    the room is read back at once: the room handler answers status "OPEN"
    and zero participants. *)
Theorem create_handler_stores_open_room uuid request w :
  (∀ sched,
     outcome (run (routes.create_room uuid request) sched w)
     = Returned (CreateRoomResponse uuid)
     ∧ rooms_dict (final (run (routes.create_room uuid request) sched w))
         !! uuid
       = Some (new_room uuid request (utcnow w)))
  ∧ final (run_alone (routes.create_room uuid request) w)
    = mkWorld (<[uuid := new_room uuid request (utcnow w)]> (rooms_dict w))
              (utcnow w)
  ∧ outcome (run_alone (routes.get_room uuid)
               (final (run_alone (routes.create_room uuid request) w)))
    = Returned (RoomResponse_
                  (mkRoomResponse uuid "OPEN"
                     (mkRoomParams (req_P request) (req_g request))
                     (sessionPublicKey request) 0 [] [])).
Proof.
  split; [|split].
  - intros sched. unfold run. simpl. split; [done|]. apply lookup_insert_eq.
  - done.
  - assert (live (final (run_alone (routes.create_room uuid request) w)) uuid
              (new_room uuid request (utcnow w))) as Hlive.
    { split; simpl; [apply lookup_insert_eq|].
      apply expired_false_iff. simpl. unfold quiet.
      unfold timedelta_seconds, ROOM_TTL_SECONDS. lia. }
    destruct (read_handlers_live uuid []
                (final (run_alone (routes.create_room uuid request) w))
                (new_room uuid request (utcnow w)) Hlive) as [Hget _].
    unfold run_alone at 1. by rewrite Hget.
Qed.

(** ** What a write keeps of the room that was read *)

Lemma writes_follow_trace {E A} R last (p : Prog E A) sched w :
  writes_follow R last p → trace_follows R last (trace (run_from p sched w)).
Proof.
  revert last sched w.
  induction p as [a|e|X c k IH]; intros last sched w Hp; simpl; [done..|].
  destruct Hp as [Hc Hk]. split; [done|]. by apply IH.
Qed.

Lemma trace_follows_last R last t room_id read wa wb room v ok before after :
  trace_follows R last
    (t ++ [Did (GetRoom room_id) (Some read) wa wb;
           Did (UpdateRoomWithVersion room v) ok before after]) →
  v = version read ∧ R read room.
Proof.
  revert last. induction t as [|[X c x w1 w2] t IH]; intros last; simpl.
  - intros (_ & (read' & [= <-] & Hv & HR) & _). done.
  - intros [_ Ht]. by eapply IH.
Qed.

Lemma carries_on_version before after v :
  carries_on before after → carries_on before (with_version after v).
Proof. intros []. by constructor. Qed.

Lemma add_participant_loop_follows attempts room_id encrypted_key last :
  writes_follow carries_on last
    (RoomStore.add_participant_loop attempts room_id encrypted_key).
Proof.
  revert last. induction attempts as [|attempt attempts IH]; intros last;
    simpl; [done|].
  split; [done|]. intros [room|]; simpl; [|done].
  repeat case_bool_decide; simpl; try done.
  split.
  - exists room. split; [done|]. split; [done|].
    constructor; simpl; try done; try reflexivity. by exists [encrypted_key].
  - intros []; simpl; [done|]. split; [done|]. intros _. apply IH.
Qed.

Lemma set_sorted_keys_follows room_id sorted_keys last :
  writes_follow carries_on last (RoomStore.set_sorted_keys room_id sorted_keys).
Proof.
  simpl. split; [done|]. intros [room|]; simpl; [|done].
  repeat case_bool_decide; simpl; try done.
  split; [|by intros []].
  exists room. split; [done|]. split; [done|].
  constructor; simpl; try done; try reflexivity.
  destruct (status room); simpl; first [done|lia].
Qed.

Lemma add_message_loop_follows attempts room_id message_blob last :
  writes_follow carries_on last
    (RoomStore.add_message_loop attempts room_id message_blob).
Proof.
  revert last. induction attempts as [|attempt attempts IH]; intros last;
    simpl; [done|].
  split; [done|]. intros [room|]; simpl; [|done].
  repeat case_bool_decide; simpl; try done.
  all: split;
    [exists room; split; [done|]; split; [done|];
     constructor; simpl; try done; try reflexivity;
       try (by exists [message_blob]); destruct (status room); simpl; lia
    |intros []; simpl; [done|]; split; [done|]; intros _; apply IH].
Qed.

Lemma mutate_follows room_id m last :
  writes_follow carries_on last (mutate room_id m).
Proof.
  destruct m; unfold mutate.
  - apply (add_participant_loop_follows (seq 0 MAX_RETRIES)).
  - apply set_sorted_keys_follows.
  - apply (add_message_loop_follows (seq 0 MAX_RETRIES)).
Qed.

(** X16. In every run of a mutating operation, under any interference,
    each call of [_update_room_with_version] passes the version of the
    room read just before in the same attempt and a room that carries that
    room on: same identifier, parameters, session key, chair secret hash
    and creation time, participants and messages kept with at most more at
    the end, sorted keys kept unless the room read was OPEN, status not
    earlier in the lifecycle.  The operations never create or delete a
    room.  When the operation returns, the room it has stored carries on
    the room read in its last attempt. *)
Theorem writes_carry_on_the_room_read room_id m sched w :
  trace_follows carries_on None (trace (run (mutate room_id m) sched w))
  ∧ (outcome (run (mutate room_id m) sched w) = Returned () →
     ∃ t read wa wb room before stored,
       trace (run (mutate room_id m) sched w)
       = t ++ [Did (GetRoom room_id) (Some read) wa wb;
               Did (UpdateRoomWithVersion room (version read)) true before
                   (final (run (mutate room_id m) sched w))]
       ∧ rooms_dict (final (run (mutate room_id m) sched w)) !! id read
         = Some stored
       ∧ carries_on read stored
       ∧ version stored = version read + 1).
Proof.
  assert (trace_follows carries_on None
            (trace (run (mutate room_id m) sched w))) as Hfollows
    by apply writes_follow_trace, mutate_follows.
  split; [done|]. intros Hout.
  destruct (cas_shape_returned room_id AtStart _ (mutate_shape room_id m) _ _
              Hout)
    as (t & read & room & wa & wb & before & current & stored
        & Ht & _ & _ & _ & Hstored & -> & Hv).
  fold (run (mutate room_id m) sched w) in Ht, Hstored.
  exists t, read, wa, wb, room, before,
    (with_version room (version read + 1)).
  split; [done|]. split; [done|]. split; [|done].
  rewrite Ht in Hfollows. apply trace_follows_last in Hfollows as [_ Hon].
  by apply carries_on_version.
Qed.

Lemma writes_carry_on_the_room_read_witness :
  outcome (run (mutate "r1" (PostMessage "m2")) [bump_versions]
             messaging_world) = Returned ()
  ∧ ∃ read stored,
      rooms_dict (final (run (mutate "r1" (PostMessage "m2")) [bump_versions]
                           messaging_world)) !! id read = Some stored
      ∧ carries_on read stored
      ∧ version stored = version read + 1.
Proof.
  assert (outcome (run (mutate "r1" (PostMessage "m2")) [bump_versions]
                     messaging_world) = Returned ()) as Hout
    by (vm_compute; reflexivity).
  split; [exact Hout|].
  destruct (writes_carry_on_the_room_read "r1" (PostMessage "m2")
              [bump_versions] messaging_world) as [_ Hret].
  destruct (Hret Hout)
    as (t & read & wa & wb & room & before & stored & _ & Hstored & Hon & Hv).
  exists read, stored. split; [exact Hstored|]. split; [exact Hon|exact Hv].
Defined.

(** ** The bookkeeping of stored rooms *)

Section Keeping.

Variable I : Room → Prop.

Lemma keeps_bind {E A B} (p : Prog E A) (f : A → Prog E B) :
  keeps I p → (∀ a, keeps I (f a)) → keeps I (bind p f).
Proof.
  intros Hp Hf. induction p as [a|e|X c k IH]; simpl in *; [done..|].
  destruct Hp as [Hc Hk]. split; [done|]. intros x Hx. by apply IH, Hk.
Qed.

Lemma keeps_try_except {E E' A} (p : Prog E A) (h : E → Prog E' A) :
  keeps I p → (∀ e, keeps I (h e)) → keeps I (try_except p h).
Proof.
  intros Hp Hh. induction p as [a|e|X c k IH]; simpl in *; [done..|].
  destruct Hp as [Hc Hk]. split; [done|]. intros x Hx. by apply IH, Hk.
Qed.

Lemma keeps_call_bind {E X B} (c : StoreCall X) (f : X → Prog E B) :
  call_keeps I c → (∀ x, reply_keeps I c x → keeps I (f x)) →
  keeps I (call c ≫= f).
Proof. intros Hc Hf. split; [done|]. intros x Hx. by apply Hf. Qed.

Lemma store_keeps_subseteq w w' :
  rooms_dict w' ⊆ rooms_dict w → store_keeps I w → store_keeps I w'.
Proof.
  intros Hsub Hinv key room Hr. eapply Hinv. by eapply lookup_weaken.
Qed.

Lemma exec_keeps {X} (c : StoreCall X) w :
  store_keeps I w → call_keeps I c →
  store_keeps I (exec c w).2 ∧ reply_keeps I c (exec c w).1.
Proof.
  intros Hinv Hc. destruct c; simpl in *.
  - split; [|done]. intros key r. simpl. rewrite lookup_insert.
    case_decide as Hk; [|by apply Hinv]. by intros [= <-].
  - split.
    + eapply store_keeps_subseteq; [|done].
      apply evicts_only_subseteq, get_room_evicts_only.
    + intros r Hr. apply get_room_Some in Hr as (Hr & _). by eapply Hinv.
  - split; [|done].
    destruct (RoomStore._update_room_with_version room expected_version w).1
      eqn:Hupd.
    + destruct (update_true _ _ _ Hupd) as (current & Hcur & _ & _ & ->).
      intros key r. simpl. rewrite lookup_insert.
      case_decide as Hk; [|by apply Hinv]. by intros [= <-].
    + eapply store_keeps_subseteq; [|done].
      by apply evicts_only_subseteq, update_false.
  - split; [|done]. unfold RoomStore.delete_room.
    destruct (rooms_dict w !! room_id); simpl; [|done].
    eapply store_keeps_subseteq; [|done]. apply delete_subseteq.
  - done.
  - done.
Qed.

Lemma reachable_keeps sha256_hexdigest cfg :
  (∀ p, handler sha256_hexdigest p → keeps I p) →
  reachable sha256_hexdigest cfg →
  store_keeps I (world cfg).
Proof.
  intros Hhandlers (cfg0 & [Hempty Hnil] & Hsteps).
  cut (store_keeps I (world cfg) ∧ Forall (keeps I) (threads cfg));
    [by intros [? _]|].
  assert (store_keeps I (world cfg0) ∧ Forall (keeps I) (threads cfg0))
    as Hinv0.
  { split; [|by rewrite Hnil]. intros key room. by rewrite Hempty. }
  clear Hempty Hnil.
  induction Hsteps as [|cfg1 cfg2 cfg3 Hstep _ IH]; [done|]. apply IH.
  destruct Hinv0 as [Hstore Hthreads].
  destruct Hstep as [cfg p Hp|cfg i X c k Hi|cfg now|cfg room_id]; simpl.
  - split; [done|]. apply Forall_app. split; [done|].
    apply Forall_singleton. by apply Hhandlers.
  - pose proof (Forall_lookup_1 _ _ _ _ Hthreads Hi) as [Hc Hk].
    destruct (exec_keeps c (world cfg) Hstore Hc) as [Hstore' Hreply].
    split; [done|]. apply Forall_insert; [done|]. by apply Hk.
  - done.
  - split; [|done]. by apply (exec_keeps (DeleteRoom room_id)).
Qed.

End Keeping.

Lemma add_participant_loop_bookkeeping attempts room_id encrypted_key :
  keeps bookkeeping
    (RoomStore.add_participant_loop attempts room_id encrypted_key).
Proof.
  induction attempts as [|attempt attempts IH]; simpl; [done|].
  split; [done|]. intros [room|] Hr; simpl; [|done].
  repeat case_bool_decide; simpl; try done.
  assert (status room = OPEN) as Hst by (by destruct (status room)).
  destruct (Hr room eq_refl) as [Hv Hopen Hsorted Hslots Hmsg].
  rewrite bool_decide_true in Hv by done.
  split.
  - constructor; simpl; try done.
    rewrite bool_decide_true by done. rewrite Hv, length_app. simpl. lia.
  - intros [] _; simpl; [done|]. split; [done|]. intros _ _. apply IH.
Qed.

Lemma set_sorted_keys_bookkeeping room_id sorted_keys :
  keeps bookkeeping (RoomStore.set_sorted_keys room_id sorted_keys).
Proof.
  simpl. split; [done|]. intros [room|] Hr; simpl; [|done].
  repeat case_bool_decide; simpl; try done.
  assert (status room = OPEN) as Hst by (by destruct (status room)).
  destruct (Hr room eq_refl) as [Hv Hopen Hsorted Hslots Hmsg].
  rewrite bool_decide_true in Hv by done.
  destruct (Hopen Hst) as [_ Hnil].
  split; [|by intros [] _].
  constructor; simpl; try done.
  - rewrite Hv, Hnil. simpl. lia.
  - intros _. split; [done|]. split; [lia|]. by apply length_size_NoDup.
  - rewrite Hnil. simpl. lia.
Qed.

Lemma add_message_loop_bookkeeping attempts room_id message_blob :
  keeps bookkeeping (RoomStore.add_message_loop attempts room_id message_blob).
Proof.
  induction attempts as [|attempt attempts IH]; simpl; [done|].
  split; [done|]. intros [room|] Hr; simpl; [|done].
  destruct (decide (status room = OPEN)) as [Hst|Hst];
    [by rewrite bool_decide_true|rewrite (bool_decide_false _ Hst)].
  case_bool_decide as Hfree; simpl; [done|].
  destruct (Hr room eq_refl) as [Hv Hopen Hsorted Hslots Hmsg].
  rewrite (bool_decide_false _ Hst) in Hv.
  assert (bookkeeping
            (with_version
               (with_messages (with_status room MESSAGING)
                  (messages room ++ [message_blob])) (version room + 1)))
    as Hnew.
  { constructor; simpl; try done.
    all: try (rewrite Hv, length_app; simpl; lia).
    all: try (rewrite length_app; simpl; lia).
    all: try (intros _; by apply Hsorted).
    all: try (intros _; by destruct (messages room)). }
  split.
  - case_bool_decide; simpl; [done|].
    destruct room as [? [] ? ? ? ? ? ? ? ?]; simpl in *; done.
  - intros [] _; simpl; [done|]. split; [done|]. intros _ _. apply IH.
Qed.

Lemma handler_bookkeeping sha256_hexdigest p :
  handler sha256_hexdigest p → keeps bookkeeping p.
Proof.
  destruct 1.
  - apply keeps_call_bind; [done|]. intros now _.
    apply keeps_call_bind; [|done]. by constructor.
  - apply keeps_call_bind; [done|]. by intros [room|] _.
  - apply keeps_try_except; [|by intros []].
    apply keeps_bind; [apply add_participant_loop_bookkeeping|done].
  - apply keeps_call_bind; [done|]. by intros [room|] _.
  - apply keeps_call_bind; [done|]. intros [room|] _; [|done].
    destruct (negb _); [done|].
    apply keeps_try_except; [|by intros []].
    apply keeps_bind; [apply set_sorted_keys_bookkeeping|done].
  - apply keeps_try_except; [|by intros []].
    apply keeps_bind; [apply add_message_loop_bookkeeping|done].
  - apply keeps_call_bind; [done|]. by intros [room|] _.
Qed.

Lemma reachable_bookkeeping sha256_hexdigest cfg key room :
  reachable sha256_hexdigest cfg →
  rooms_dict (world cfg) !! key = Some room →
  bookkeeping room.
Proof.
  intros Hreach Hr.
  by eapply (reachable_keeps bookkeeping sha256_hexdigest cfg
               (handler_bookkeeping sha256_hexdigest) Hreach).
Qed.

(** ** Serving requests one at a time is an execution of the system *)

Lemma run_alone_run_from {E A} (p : Prog E A) w :
  run_alone p w = run_from p [] w.
Proof. by destruct p. Qed.

Lemma thread_runs sha256_hexdigest (p : Prog HTTPException Response) :
  ∀ w threads i,
    threads !! i = Some p →
    rtc (sys_step sha256_hexdigest) (mkConfig w threads)
      (mkConfig (final (run_from p [] w))
                (<[i := finished (outcome (run_from p [] w))]> threads)).
Proof.
  induction p as [a|e|X c k IH]; intros w threads i Hi; simpl.
  - rewrite list_insert_id by done. apply rtc_refl.
  - rewrite list_insert_id by done. apply rtc_refl.
  - eapply rtc_l.
    { apply (step_call _ (mkConfig w threads) i X c k Hi). }
    simpl. unfold quiet.
    pose proof (IH (exec c w).1 (exec c w).2 (<[i := k (exec c w).1]> threads) i)
      as Hrest.
    rewrite list_insert_insert_eq in Hrest. apply Hrest.
    apply list_lookup_insert_eq. by eapply lookup_lt_Some.
Qed.

Lemma reachable_serve_one sha256_hexdigest p cfg :
  reachable sha256_hexdigest cfg →
  handler sha256_hexdigest p →
  reachable sha256_hexdigest
    (mkConfig (final (run_alone p (world cfg)))
       (threads cfg ++ [finished (outcome (run_alone p (world cfg)))])).
Proof.
  intros (cfg0 & Hinit & Hsteps) Hp. exists cfg0. split; [done|].
  etrans; [exact Hsteps|].
  eapply rtc_l; [by apply step_request|].
  rewrite run_alone_run_from.
  pose proof (thread_runs sha256_hexdigest p (world cfg) (threads cfg ++ [p])
                (length (threads cfg))) as Hrun.
  rewrite insert_app_r_alt in Hrun by done.
  rewrite Nat.sub_diag in Hrun. simpl in Hrun. apply Hrun.
  rewrite lookup_app_r by done. by rewrite Nat.sub_diag.
Qed.

Lemma reachable_serve sha256_hexdigest ps :
  Forall (handler sha256_hexdigest) ps →
  ∀ cfg outcomes,
    reachable sha256_hexdigest cfg →
    ∃ threads,
      reachable sha256_hexdigest
        (mkConfig
           (foldl (λ acc p, (acc.1 ++ [outcome (run_alone p acc.2)],
                             final (run_alone p acc.2)))
                  (outcomes, world cfg) ps).2
           threads).
Proof.
  induction 1 as [|p ps Hp Hps IH]; intros cfg outcomes Hreach; simpl.
  - exists (threads cfg). by destruct cfg.
  - apply (IH (mkConfig (final (run_alone p (world cfg)))
                 (threads cfg ++ [finished (outcome (run_alone p (world cfg)))]))).
    by apply reachable_serve_one.
Qed.

Lemma reachable_exchange :
  ∃ threads,
    reachable toy_hash
      (mkConfig (mkWorld {[ "r1" := exchange_room ]} 0) threads).
Proof.
  assert (Forall (handler toy_hash) exchange_requests) as Hhandlers
    by (repeat constructor).
  assert (reachable toy_hash (mkConfig empty_world [])) as Hempty
    by (exists (mkConfig empty_world []); split; [done|apply rtc_refl]).
  destruct (reachable_serve toy_hash exchange_requests Hhandlers
              (mkConfig empty_world []) [] Hempty) as [threads Hreach].
  exists threads.
  assert ((foldl (λ acc p, (acc.1 ++ [outcome (run_alone p acc.2)],
                            final (run_alone p acc.2)))
                 ([], world (mkConfig empty_world [])) exchange_requests).2
          = mkWorld {[ "r1" := exchange_room ]} 0) as Heq
    by (vm_compute; reflexivity).
  by rewrite Heq in Hreach.
Qed.

(** X18. In every state the system can reach, a stored room in status OPEN
    has no sorted keys and no messages, and a stored room past OPEN has at
    least three sorted keys, pairwise distinct and as many as its
    participants. *)
Theorem sorted_keys_match_participants sha256_hexdigest cfg key room :
  reachable sha256_hexdigest cfg →
  rooms_dict (world cfg) !! key = Some room →
  (status room = OPEN → sorted_keys room = [] ∧ messages room = [])
  ∧ (status room ≠ OPEN →
     length (sorted_keys room) = length (participants room)
     ∧ (3 ≤ length (sorted_keys room))%nat
     ∧ NoDup (sorted_keys room)).
Proof.
  intros Hreach Hr. by destruct (reachable_bookkeeping _ _ _ _ Hreach Hr).
Qed.

Lemma sorted_keys_match_participants_witness :
  length (sorted_keys exchange_room) = length (participants exchange_room)
  ∧ NoDup (sorted_keys exchange_room).
Proof.
  destruct reachable_exchange as [threads Hreach].
  destruct (sorted_keys_match_participants toy_hash
              (mkConfig (mkWorld {[ "r1" := exchange_room ]} 0) threads)
              "r1" exchange_room Hreach eq_refl) as [_ Hpast].
  destruct Hpast as (Hlen & _ & Hnd); [discriminate|].
  split; [exact Hlen|exact Hnd].
Defined.

(** X19. In every state the system can reach, a stored room holds at most
    as many messages as sorted keys, and it holds a message exactly when
    its status is MESSAGING. *)
Theorem messages_fit_sorted_keys sha256_hexdigest cfg key room :
  reachable sha256_hexdigest cfg →
  rooms_dict (world cfg) !! key = Some room →
  (length (messages room) ≤ length (sorted_keys room))%nat
  ∧ (messages room ≠ [] ↔ status room = MESSAGING).
Proof.
  intros Hreach Hr.
  destruct (reachable_bookkeeping _ _ _ _ Hreach Hr) as [_ _ _ Hslots Hmsg].
  destruct (reachable_inv _ _ Hreach) as [Hstore _].
  destruct (Hstore key room Hr) as [_ _ Hnil _].
  split; [done|]. split; [|done].
  intros Hne. destruct (decide (status room = MESSAGING)); [done|].
  by destruct Hne, Hnil.
Qed.

Lemma messages_fit_sorted_keys_witness :
  (length (messages exchange_room) ≤ length (sorted_keys exchange_room))%nat.
Proof.
  destruct reachable_exchange as [threads Hreach].
  apply (messages_fit_sorted_keys toy_hash
           (mkConfig (mkWorld {[ "r1" := exchange_room ]} 0) threads)
           "r1" exchange_room Hreach).
  reflexivity.
Defined.

(** X20. In every state the system can reach, each room is stored under its
    own identifier: the key of the dict is the [id] field of the record. *)
Theorem rooms_stored_under_their_identifier sha256_hexdigest cfg key room :
  reachable sha256_hexdigest cfg →
  rooms_dict (world cfg) !! key = Some room →
  id room = key.
Proof.
  intros Hreach Hr. destruct (reachable_inv _ _ Hreach) as [Hstore _].
  by destruct (Hstore key room Hr).
Qed.

Lemma rooms_stored_under_their_identifier_witness :
  id exchange_room = "r1".
Proof.
  destruct reachable_exchange as [threads Hreach].
  apply (rooms_stored_under_their_identifier toy_hash
           (mkConfig (mkWorld {[ "r1" := exchange_room ]} 0) threads)
           "r1" exchange_room Hreach).
  reflexivity.
Defined.

(** ** Bounded work *)

Lemma total_prefix (l1 l2 : list Z) :
  l1 `prefix_of` l2 → Forall (λ d, 0 ≤ d)%Z l2 → (total l1 ≤ total l2)%Z.
Proof.
  intros [k ->] Hpos. apply Forall_app in Hpos as [_ Hk].
  unfold total. rewrite foldr_app.
  assert (0 ≤ foldr Z.add 0 k)%Z as Hk0.
  { induction Hk as [|d k Hd Hk IH]; simpl; lia. }
  revert Hk0. generalize (foldr Z.add 0%Z k). intros n Hn.
  induction l1 as [|d l1 IH]; simpl; lia.
Qed.

Lemma add_participant_loop_bounded attempts room_id encrypted_key sched w :
  (length (trace (run_from
     (RoomStore.add_participant_loop attempts room_id encrypted_key) sched w))
   ≤ 3 * length attempts)%nat
  ∧ sleeps (trace (run_from
      (RoomStore.add_participant_loop attempts room_id encrypted_key) sched w))
    `prefix_of` map (λ attempt, RETRY_DELAY_MS * 2 ^ Z.of_nat attempt) attempts.
Proof.
  revert sched w. induction attempts as [|attempt attempts IH]; intros sched w.
  - simpl. split; [lia|done].
  - simpl.
    destruct (RoomStore.get_room room_id (hd quiet sched w)) as [[room|] w1];
      simpl; [|split; [lia|apply prefix_nil]].
    repeat case_bool_decide; simpl; try (split; [lia|apply prefix_nil]).
    destruct (RoomStore._update_room_with_version _ _ _) as [[] w2]; simpl;
      [split; [lia|apply prefix_nil]|].
    destruct (IH (tail (tail (tail sched)))
                (mkWorld (rooms_dict (hd quiet (tail (tail sched)) w2))
                   (utcnow (hd quiet (tail (tail sched)) w2)
                    + RETRY_DELAY_MS * 2 ^ Z.of_nat attempt * 1000)))
      as [Hle Hpre].
    split; [lia|]. by apply prefix_cons.
Qed.

Lemma add_message_loop_bounded attempts room_id message_blob sched w :
  (length (trace (run_from
     (RoomStore.add_message_loop attempts room_id message_blob) sched w))
   ≤ 3 * length attempts)%nat
  ∧ sleeps (trace (run_from
      (RoomStore.add_message_loop attempts room_id message_blob) sched w))
    `prefix_of` map (λ attempt, RETRY_DELAY_MS * 2 ^ Z.of_nat attempt) attempts.
Proof.
  revert sched w. induction attempts as [|attempt attempts IH]; intros sched w.
  - simpl. split; [lia|done].
  - simpl.
    destruct (RoomStore.get_room room_id (hd quiet sched w)) as [[room|] w1];
      simpl; [|split; [lia|apply prefix_nil]].
    repeat case_bool_decide; simpl; try (split; [lia|apply prefix_nil]).
    all: destruct (RoomStore._update_room_with_version _ _ _) as [[] w2]; simpl;
      [split; [lia|apply prefix_nil]|].
    all: destruct (IH (tail (tail (tail sched)))
                (mkWorld (rooms_dict (hd quiet (tail (tail sched)) w2))
                   (utcnow (hd quiet (tail (tail sched)) w2)
                    + RETRY_DELAY_MS * 2 ^ Z.of_nat attempt * 1000)))
      as [Hle Hpre].
    all: split; [lia|]; by apply prefix_cons.
Qed.

(** X21. Whatever the other clients do, a mutating operation ends after at
    most fifteen calls (reads, updates and sleeps together); the delays it
    sleeps are the first ones of 50, 100, 200, 400, 800 milliseconds, in
    that order, so it never sleeps more than 1550 milliseconds in all. *)
Theorem operations_do_bounded_work room_id m sched w :
  (length (trace (run (mutate room_id m) sched w)) ≤ 3 * MAX_RETRIES)%nat
  ∧ sleeps (trace (run (mutate room_id m) sched w)) `prefix_of` backoff_delays
  ∧ (total (sleeps (trace (run (mutate room_id m) sched w))) ≤ 1550)%Z.
Proof.
  assert ((length (trace (run (mutate room_id m) sched w)) ≤ 3 * MAX_RETRIES)%nat
          ∧ sleeps (trace (run (mutate room_id m) sched w))
            `prefix_of` backoff_delays) as [Hlen Hpre].
  { destruct m as [encrypted_key|sorted_keys|message_blob]; unfold mutate.
    - apply (add_participant_loop_bounded (seq 0 MAX_RETRIES)).
    - destruct (set_sorted_keys_attempts room_id sorted_keys sched w)
        as [_ ->].
      split; [|apply prefix_nil].
      unfold run. simpl.
      destruct (RoomStore.get_room room_id (quiet w)) as [[room|] w1]; simpl;
        [|lia].
      repeat case_bool_decide; simpl; try lia.
      destruct (RoomStore._update_room_with_version _ _ _) as [[] w2]; simpl;
        lia.
    - apply (add_message_loop_bounded (seq 0 MAX_RETRIES)). }
  split; [done|]. split; [done|].
  change 1550%Z with (total backoff_delays).
  apply total_prefix; [done|]. repeat constructor; done.
Qed.

(** * The update in two steps *)

(** The method is its check followed by its write. *)
Lemma update_is_check_then_write room expected_version w :
  RoomStore._update_room_with_version room expected_version w
  = update_with_race quiet room expected_version w.
Proof.
  unfold update_with_race, version_check, RoomStore._update_room_with_version.
  destruct (RoomStore.get_room (id room) w) as [[current|] w1]; [|done].
  by case_bool_decide.
Qed.

Lemma exec_racing_quiet {X} (c : StoreCall X) w :
  exec_racing quiet c w = exec c w.
Proof. destruct c; simpl; try done. by rewrite update_is_check_then_write. Qed.

(** With nothing acting inside the updates, the finer run is the run. *)
Lemma race_from_quiet {E A} (p : Prog E A) sched w :
  race_from p (map (λ i, (i, quiet)) sched) w = run_from p sched w.
Proof.
  revert sched w. induction p as [a|e|X c k IH]; intros sched w; [done..|].
  destruct sched as [|i sched]; simpl; rewrite exec_racing_quiet.
  - by rewrite <- (IH _ []).
  - by rewrite IH.
Qed.

Lemma version_check_true room expected_version w :
  (version_check room expected_version w).1 = true →
  (version_check room expected_version w).2 = w
  ∧ ∃ current,
      rooms_dict w !! id room = Some current
      ∧ expired (utcnow w) current = false
      ∧ version current = expected_version.
Proof.
  unfold version_check.
  destruct (RoomStore.get_room (id room) w) as [[current|] w1] eqn:Hget;
    [|done].
  pose proof (get_room_Some (id room) w current) as Hs.
  rewrite Hget in Hs. simpl in Hs. destruct (Hs eq_refl) as (Hr & He & ->).
  case_bool_decide as Hv; simpl; [done|].
  intros _. split; [done|]. exists current. repeat split; try done.
Qed.

Lemma version_check_subseteq room expected_version w :
  rooms_dict (version_check room expected_version w).2 ⊆ rooms_dict w.
Proof.
  unfold version_check.
  pose proof (evicts_only_subseteq _ _ (get_room_evicts_only (id room) w)).
  destruct (RoomStore.get_room (id room) w) as [[current|] w1]; simpl in *;
    [|done].
  by case_bool_decide.
Qed.

(** What stays true when others write between the check and the write: the
    check saw the expected version, and the record left by the write
    carries that version plus one. *)
Lemma update_with_race_true between room expected_version w :
  (update_with_race between room expected_version w).1 = true →
  (∃ current,
     rooms_dict w !! id room = Some current
     ∧ version current = expected_version)
  ∧ rooms_dict (update_with_race between room expected_version w).2 !! id room
    = Some (with_version room (expected_version + 1)).
Proof.
  unfold update_with_race.
  destruct (version_check room expected_version w) as [[] w1] eqn:Hcheck;
    simpl; [|done].
  intros _.
  destruct (version_check_true room expected_version w) as (_ & current & Hr & _ & Hv).
  { by rewrite Hcheck. }
  split; [by exists current|]. apply lookup_insert_eq.
Qed.

(** C1. The claim fails in the code.  Client A registers "kA" in a new room:
    it reads version 0 and its version check passes; before its write, two
    other clients register "kB" and "kC", leaving the stored version at 2
    with both keys; then the write of A lands.  The operation of A returns,
    and its one accepted write has taken the stored version from 2 down to
    1 and the stored participants from "kB", "kC" to "kA" alone. *)
Theorem lost_update_lowers_stored_version :
  version_check (with_participants fresh_room ["kA"]) 0 fresh_world
  = (true, fresh_world)
  ∧ rooms_dict (two_registrations fresh_world) !! "r1"
    = Some (mkRoom "r1" OPEN (mkRoomParams "23" "5") "session-key"
              "chair-hash" ["kB"; "kC"] [] [] 0 2)
  ∧ update_with_race two_registrations (with_participants fresh_room ["kA"])
      0 fresh_world
    = (true,
       mkWorld {[ "r1" := mkRoom "r1" OPEN (mkRoomParams "23" "5")
                            "session-key" "chair-hash" ["kA"] [] [] 0 1 ]}
               1000)
  ∧ outcome (race_from (RoomStore.add_participant "r1" "kA")
               [(quiet, quiet); (quiet, two_registrations)] fresh_world)
    = Returned ()
  ∧ final (race_from (RoomStore.add_participant "r1" "kA")
             [(quiet, quiet); (quiet, two_registrations)] fresh_world)
    = mkWorld {[ "r1" := mkRoom "r1" OPEN (mkRoomParams "23" "5")
                           "session-key" "chair-hash" ["kA"] [] [] 0 1 ]}
              1000
  ∧ updates (trace (race_from (RoomStore.add_participant "r1" "kA")
                      [(quiet, quiet); (quiet, two_registrations)]
                      fresh_world))
    = [(with_participants fresh_room ["kA"], 0, true)].
Proof.
  split; [vm_compute; reflexivity|].
  split; [vm_compute; reflexivity|].
  split; [vm_compute; reflexivity|].
  split; [vm_compute; reflexivity|].
  split; vm_compute; reflexivity.
Qed.

(** ** Invariants of the records under the finer steps *)

Section RaceKeeping.

Variable I : Room → Prop.

Lemma write_room_keeps room expected_version w :
  store_keeps I w →
  I (with_version room (expected_version + 1)) →
  store_keeps I (write_room room expected_version w).
Proof.
  intros Hinv Hroom key r. unfold write_room. simpl. rewrite lookup_insert.
  case_decide as Hk; [|by apply Hinv]. by intros [= <-].
Qed.

Lemma begin_call_keeps {X} (c : StoreCall X) k w :
  store_keeps I w →
  keeps I (Call c k) →
  store_keeps I (begin_call c k w).2 ∧ thread_keeps I (begin_call c k w).1.
Proof.
  intros Hinv [Hc Hk]. destruct c; simpl in *.
  - destruct (exec_keeps I (CreateRoom room) w Hinv Hc) as [Hstore Hreply].
    split; [done|]. by apply Hk.
  - destruct (exec_keeps I (GetRoom room_id) w Hinv Hc) as [Hstore Hreply].
    split; [done|]. by apply Hk.
  - assert (store_keeps I (version_check room expected_version w).2) as Hstore
      by (eapply store_keeps_subseteq; [apply version_check_subseteq|done]).
    destruct (version_check room expected_version w).1; simpl.
    + split; [done|]. split; [done|]. intros ok. by apply Hk.
    + split; [done|]. by apply Hk.
  - destruct (exec_keeps I (DeleteRoom room_id) w Hinv Hc) as [Hstore Hreply].
    split; [done|]. by apply Hk.
  - split; [done|]. by apply Hk.
  - split; [done|]. by apply Hk.
Qed.

Lemma race_reachable_keeps sha256_hexdigest cfg :
  (∀ p, handler sha256_hexdigest p → keeps I p) →
  race_reachable sha256_hexdigest cfg →
  store_keeps I (race_world cfg).
Proof.
  intros Hhandlers (cfg0 & [Hempty Hnil] & Hsteps).
  cut (store_keeps I (race_world cfg)
       ∧ Forall (thread_keeps I) (race_threads cfg)); [by intros [? _]|].
  assert (store_keeps I (race_world cfg0)
          ∧ Forall (thread_keeps I) (race_threads cfg0)) as Hinv0.
  { split; [|by rewrite Hnil]. intros key room. by rewrite Hempty. }
  clear Hempty Hnil.
  induction Hsteps as [|cfg1 cfg2 cfg3 Hstep _ IH]; [done|]. apply IH.
  destruct Hinv0 as [Hstore Hthreads].
  destruct Hstep
    as [cfg p Hp|cfg i X c k Hi|cfg i room expected_version k Hi|cfg now
       |cfg room_id]; simpl.
  - split; [done|]. apply Forall_app. split; [done|].
    apply Forall_singleton. by apply Hhandlers.
  - pose proof (Forall_lookup_1 _ _ _ _ Hthreads Hi) as Hp.
    destruct (begin_call_keeps c k (race_world cfg) Hstore Hp)
      as [Hstore' Hthread].
    split; [done|]. by apply Forall_insert.
  - pose proof (Forall_lookup_1 _ _ _ _ Hthreads Hi) as [Hroom Hk].
    split; [by apply write_room_keeps|]. apply Forall_insert; [done|].
    apply Hk.
  - done.
  - split; [|done]. by apply (exec_keeps I (DeleteRoom room_id)).
Qed.

End RaceKeeping.

(** Every execution of the system with one-step updates is an execution
    of the finer one: the check of an update at once followed by its
    write. *)
Lemma sys_step_race_steps sha256_hexdigest cfg cfg' :
  sys_step sha256_hexdigest cfg cfg' →
  rtc (race_step sha256_hexdigest)
    (mkRaceConfig (world cfg) (Running <$> threads cfg))
    (mkRaceConfig (world cfg') (Running <$> threads cfg')).
Proof.
  intros [cfg0 p Hp|cfg0 i X c k Hi|cfg0 now|cfg0 room_id]; simpl.
  - rewrite fmap_app. apply rtc_once.
    exact (race_request sha256_hexdigest
             (mkRaceConfig (world cfg0) (Running <$> threads cfg0)) p Hp).
  - assert ((Running <$> threads cfg0) !! i = Some (Running (Call c k))) as Hi'
      by (by rewrite list_lookup_fmap, Hi).
    rewrite list_fmap_insert.
    pose proof (race_call sha256_hexdigest
                  (mkRaceConfig (world cfg0) (Running <$> threads cfg0))
                  i X c k Hi') as Hstep.
    simpl in Hstep.
    destruct c; simpl in *; try (by apply rtc_once).
    rewrite update_is_check_then_write. unfold update_with_race.
    destruct (version_check room expected_version (world cfg0))
      as [[] w1] eqn:Hcheck; simpl in *; [|by apply rtc_once].
    eapply rtc_l; [exact Hstep|].
    pose proof (race_write sha256_hexdigest
                  (mkRaceConfig w1
                     (<[i := Writing room expected_version k]>
                        (Running <$> threads cfg0)))
                  i room expected_version k) as Hwrite.
    simpl in Hwrite. rewrite list_insert_insert_eq in Hwrite.
    apply rtc_once, Hwrite. apply list_lookup_insert_eq.
    by eapply lookup_lt_Some.
  - apply rtc_once.
    exact (race_time sha256_hexdigest
             (mkRaceConfig (world cfg0) (Running <$> threads cfg0)) now).
  - apply rtc_once.
    exact (race_delete sha256_hexdigest
             (mkRaceConfig (world cfg0) (Running <$> threads cfg0)) room_id).
Qed.

Lemma reachable_race_reachable sha256_hexdigest cfg :
  reachable sha256_hexdigest cfg →
  race_reachable sha256_hexdigest
    (mkRaceConfig (world cfg) (Running <$> threads cfg)).
Proof.
  intros (cfg0 & [Hempty Hnil] & Hsteps).
  exists (mkRaceConfig (world cfg0) (Running <$> threads cfg0)).
  split; [split; simpl; [done|by rewrite Hnil]|].
  clear Hempty Hnil.
  induction Hsteps as [|cfg1 cfg2 cfg3 Hstep _ IH]; [apply rtc_refl|].
  etrans; [by apply sys_step_race_steps|exact IH].
Qed.

(** X17. In every state the system can reach, also when the check and the
    write of an update are separate steps with other clients acting in
    between, the version field of a stored room equals the number of its
    participants, plus one if the room has left status OPEN, plus the
    number of its messages.  This relates the fields of one record: every
    record written is made from a record that was read.  It does not say
    that the store still holds every accepted write. *)
Theorem version_matches_record_contents sha256_hexdigest :
  (∀ cfg key room,
     reachable sha256_hexdigest cfg →
     rooms_dict (world cfg) !! key = Some room →
     version room
     = (Z.of_nat (length (participants room))
        + (if bool_decide (status room = OPEN) then 0 else 1)
        + Z.of_nat (length (messages room)))%Z)
  ∧ (∀ cfg key room,
       race_reachable sha256_hexdigest cfg →
       rooms_dict (race_world cfg) !! key = Some room →
       version room
       = (Z.of_nat (length (participants room))
          + (if bool_decide (status room = OPEN) then 0 else 1)
          + Z.of_nat (length (messages room)))%Z).
Proof.
  split; intros cfg key room Hreach Hr.
  - by destruct (reachable_bookkeeping _ _ _ _ Hreach Hr).
  - pose proof (race_reachable_keeps bookkeeping sha256_hexdigest cfg
                  (handler_bookkeeping sha256_hexdigest) Hreach key room Hr)
      as Hbook.
    by destruct Hbook.
Qed.

Lemma version_matches_record_contents_witness :
  version exchange_room = (3 + 1 + 2)%Z.
Proof.
  destruct reachable_exchange as [threads Hreach].
  apply reachable_race_reachable in Hreach.
  destruct (version_matches_record_contents toy_hash) as [_ Hrace].
  apply (Hrace (mkRaceConfig (mkWorld {[ "r1" := exchange_room ]} 0)
                  (Running <$> threads))
           "r1" exchange_room Hreach).
  reflexivity.
Defined.

(** ** The invariants of the records do not need the update to be one step *)

Lemma add_participant_loop_record attempts room_id encrypted_key :
  keeps record_inv
    (RoomStore.add_participant_loop attempts room_id encrypted_key).
Proof.
  induction attempts as [|attempt attempts IH]; simpl; [done|].
  split; [done|]. intros [room|] Hr; simpl; [|done].
  destruct (Hr room eq_refl) as [Hnd Hmsg].
  repeat case_bool_decide; simpl; try done.
  split.
  - split; simpl; [|done].
    apply NoDup_app. split; [done|]. split; [|apply NoDup_singleton].
    intros x Hx ->%list_elem_of_singleton. done.
  - intros [] _; simpl; [done|]. split; [done|]. intros _ _. apply IH.
Qed.

Lemma set_sorted_keys_record room_id sorted_keys :
  keeps record_inv (RoomStore.set_sorted_keys room_id sorted_keys).
Proof.
  simpl. split; [done|]. intros [room|] Hr; simpl; [|done].
  destruct (Hr room eq_refl) as [Hnd Hmsg].
  repeat case_bool_decide; simpl; try done.
  split; [|by intros [] _].
  split; simpl; [done|]. intros _. apply Hmsg. by destruct (status room).
Qed.

Lemma add_message_loop_record attempts room_id message_blob :
  keeps record_inv (RoomStore.add_message_loop attempts room_id message_blob).
Proof.
  induction attempts as [|attempt attempts IH]; simpl; [done|].
  split; [done|]. intros [room|] Hr; simpl; [|done].
  destruct (Hr room eq_refl) as [Hnd Hmsg].
  repeat case_bool_decide; simpl; try done.
  all: split;
    [split; simpl; [done|by destruct (status room)]
    |intros [] _; simpl; [done|]; split; [done|]; intros _ _; apply IH].
Qed.

Lemma handler_record sha256_hexdigest p :
  handler sha256_hexdigest p → keeps record_inv p.
Proof.
  destruct 1.
  - apply keeps_call_bind; [done|]. intros now _.
    apply keeps_call_bind; [|done]. split; simpl; [apply NoDup_nil_2|done].
  - apply keeps_call_bind; [done|]. by intros [room|] _.
  - apply keeps_try_except; [|by intros []].
    apply keeps_bind; [apply add_participant_loop_record|done].
  - apply keeps_call_bind; [done|]. by intros [room|] _.
  - apply keeps_call_bind; [done|]. intros [room|] _; [|done].
    destruct (negb _); [done|].
    apply keeps_try_except; [|by intros []].
    apply keeps_bind; [apply set_sorted_keys_record|done].
  - apply keeps_try_except; [|by intros []].
    apply keeps_bind; [apply add_message_loop_record|done].
  - apply keeps_call_bind; [done|]. by intros [room|] _.
Qed.

(** With the check and the write of an update as separate steps, every
    stored room still has participants free of duplicates, no message
    unless its status is MESSAGING, and its bookkeeping in order: these
    are properties of single records, and every record written is made
    from a record that was read. *)
Lemma race_reachable_records sha256_hexdigest cfg key room :
  race_reachable sha256_hexdigest cfg →
  rooms_dict (race_world cfg) !! key = Some room →
  NoDup (participants room)
  ∧ (status room = SORTED → messages room = [])
  ∧ bookkeeping room.
Proof.
  intros Hreach Hr.
  destruct (race_reachable_keeps record_inv sha256_hexdigest cfg
              (handler_record sha256_hexdigest) Hreach key room Hr)
    as [Hnd Hmsg].
  split; [done|]. split.
  - intros Hsorted. apply Hmsg. by rewrite Hsorted.
  - exact (race_reachable_keeps bookkeeping sha256_hexdigest cfg
             (handler_bookkeeping sha256_hexdigest) Hreach key room Hr).
Qed.
